(** * A shallow embedding of the orchestration layer of pdf_redaction_mcp/server.py

    The server is a thin layer over the pymupdf engine.  The engine is kept
    abstract (a type class of page-level primitives); what is embedded is the
    control flow of each tool: which engine primitive is called, on which page,
    in which order, and how counts, summaries and verdicts are computed.

    Effects: every tool runs in a state/exception monad over the open
    document.  The state records, besides the pages, a trace of the
    mutating engine calls (staging a redaction annotation, committing the
    staged annotations of a page, reading a page's text, saving), so that
    claims about the order of staging and committing can be stated. *)

From Stdlib Require Import List String Ascii Bool Arith Lia ZArith QArith.
Import ListNotations.
Set Warnings "-register-all".
Open Scope nat_scope.
Open Scope string_scope.

(** ** Geometry: pymupdf.Rect *)

Record Rect := mkRect { x0 : Q; y0 : Q; x1 : Q; y1 : Q }.

(** pymupdf's infinite rectangle: (FZ_MIN_INF_RECT, FZ_MIN_INF_RECT,
    FZ_MAX_INF_RECT, FZ_MAX_INF_RECT). *)
Definition FZ_MIN_INF_RECT : Q := inject_Z (-2147483648).
Definition FZ_MAX_INF_RECT : Q := inject_Z 2147483520.

Definition is_infinite (r : Rect) : bool :=
  Qeq_bool (x0 r) FZ_MIN_INF_RECT && Qeq_bool (y0 r) FZ_MIN_INF_RECT &&
  Qeq_bool (x1 r) FZ_MAX_INF_RECT && Qeq_bool (y1 r) FZ_MAX_INF_RECT.

(** pymupdf's [Rect.is_empty]: no positive area. *)
Definition is_empty (r : Rect) : bool :=
  Qle_bool (x1 r) (x0 r) || Qle_bool (y1 r) (y0 r).

(** RGB colour with channels in [0,1]. *)
Definition Color := (Q * Q * Q)%type.

(** Python values, as they reach a tool through a [Dict[str, Any]]
    argument (a JSON object decoded by the transport). *)
Inductive PyVal :=
| PNone
| PBool (b : bool)
| PInt (z : Z)
| PFloat (q : Q)
| PStr (s : string)
| PList (l : list PyVal)
| PDict (d : list (string * PyVal)).

(** Arguments of [page.add_redact_annot(rect, text=..., fill=..., text_color=...)];
    [None] is the engine's default. *)
Record Annot := mkAnnot {
  a_rect : Rect;
  a_text : PyVal;
  a_fill : Color;
  a_text_color : option Color }.

(** The [images=] argument of [page.apply_redactions]. *)
Inductive ImagePolicy := PDF_REDACT_IMAGE_DEFAULT | PDF_REDACT_IMAGE_REMOVE.

(** ** The engine (pymupdf), as seen by the server *)

Class PdfEngine := {
  Page : Type;
  Image : Type;
  Blocks : Type;
  (** [page.get_text("text")] *)
  get_text : Page -> string;
  (** [page.get_text("dict")["blocks"]] *)
  get_blocks : Page -> Blocks;
  (** [page.search_for(s)]: one rectangle per located hit; [None] where
      pymupdf returns [None] instead of a list (an empty needle) *)
  search_for : Page -> string -> option (list Rect);
  (** [page.get_images()] *)
  get_images : Page -> list Image;
  (** [page.get_image_bbox(img[7])] *)
  get_image_bbox : Page -> Image -> Rect;
  (** [page.apply_redactions(images=...)]: the page content rewritten under
      the given annotations, and the message of the exception raised after
      that rewrite while the overlay texts are drawn, if any (pymupdf's
      [insert_textbox] refuses an empty or infinite box) *)
  apply_redactions : Page -> list Annot -> ImagePolicy -> Page * option string }.

(** ** Document state and trace *)

Section Document.
Context {E : PdfEngine}.

(** A page of an open document: its content and its redaction annotations
    not yet applied. *)
Record PageSt := mkPageSt { pcontent : Page; pannots : list Annot }.

Inductive Event :=
| EvRead (i : nat)                      (** a text query on page [i] *)
| EvStage (i : nat) (a : Annot)         (** [add_redact_annot] on page [i] *)
| EvCommit (i : nat) (p : ImagePolicy)  (** [apply_redactions] on page [i] *)
| EvSave.                               (** [doc.save(...)] *)

Record St := mkSt { st_pages : list PageSt; st_closed : bool; st_trace : list Event }.

(** A document freshly returned by [pymupdf.open]. *)
Definition open_doc (pgs : list Page) : St :=
  mkSt (map (fun p => mkPageSt p []) pgs) false [].

(** Python exceptions carry their message; [str(e)] is that message. *)
Inductive Res (A : Type) := Ok (a : A) | Raise (msg : string).
#[global] Arguments Ok {A} a.
#[global] Arguments Raise {A} msg.

Definition M (A : Type) := St -> Res A * St.

Definition ret {A} (a : A) : M A := fun s => (Ok a, s).
Definition bind {A B} (m : M A) (k : A -> M B) : M B :=
  fun s => match m s with
           | (Ok a, s') => k a s'
           | (Raise e, s') => (Raise e, s')
           end.
Definition raise {A} (msg : string) : M A := fun s => (Raise msg, s).

(** [try: body except Exception as e: handler(str(e))] *)
Definition try_except {A} (body : M A) (handler : string -> M A) : M A :=
  fun s => match body s with
           | (Ok a, s') => (Ok a, s')
           | (Raise e, s') => handler e s'
           end.

End Document.

Notation "x <- m ;; k" := (bind m (fun x => k)) (at level 61, m at next level, right associativity).
Notation "m ;;; k" := (bind m (fun _ => k)) (at level 61, right associativity).

(** ** Decimal rendering of numbers, as Python's f-strings print them *)

Fixpoint digits_rev (fuel n : nat) : list ascii :=
  match fuel with
  | 0 => []
  | S fuel' =>
      let d := ascii_of_nat (48 + n mod 10) in
      if Nat.ltb n 10 then [d] else d :: digits_rev fuel' (n / 10)
  end.

Definition nat_to_string (n : nat) : string :=
  string_of_list_ascii (rev (digits_rev (S n) n)).

Definition Z_to_string (z : Z) : string :=
  if (z <? 0)%Z then "-" ++ nat_to_string (Z.to_nat (- z)) else nat_to_string (Z.to_nat z).

(** ** Engine primitives on an open document *)

Section Primitives.
Context {E : PdfEngine}.

Fixpoint list_update {A} (i : nat) (f : A -> A) (l : list A) : list A :=
  match l, i with
  | [], _ => []
  | x :: xs, 0 => f x :: xs
  | x :: xs, S i' => x :: list_update i' f xs
  end.

Definition log (ev : Event) : M unit :=
  fun s => (Ok tt, mkSt (st_pages s) (st_closed s) (st_trace s ++ [ev])).

(** [len(doc)]: pymupdf's [page_count] raises on a closed document. *)
Definition doc_len : M nat :=
  fun s => if st_closed s then (Raise "document closed", s)
           else (Ok (List.length (st_pages s)), s).

(** [doc[i]]: an int page index; negative indices count from the end. *)
Definition doc_getitem (i : Z) : M nat :=
  n <- doc_len ;;
  let nz := Z.of_nat n in
  if (i <? nz)%Z then
    if (0 <=? i)%Z then ret (Z.to_nat i)
    else if Nat.eqb n 0 then raise ("page " ++ Z_to_string i ++ " not in document")
    else ret (Z.to_nat (i mod nz))
  else raise ("page " ++ Z_to_string i ++ " not in document").

Definition page_at (i : nat) : M PageSt :=
  fun s => match nth_error (st_pages s) i with
           | Some p => (Ok p, s)
           | None => (Raise ("page " ++ nat_to_string i ++ " not in document"), s)
           end.

(** [page.get_text("text")] *)
Definition page_get_text (i : nat) : M string :=
  p <- page_at i ;; log (EvRead i) ;;; ret (get_text (pcontent p)).

(** [page.get_text("dict")["blocks"]] *)
Definition page_get_blocks (i : nat) : M Blocks :=
  p <- page_at i ;; log (EvRead i) ;;; ret (get_blocks (pcontent p)).

(** [page.search_for(s)] *)
Definition page_search_for (i : nat) (needle : string) : M (option (list Rect)) :=
  p <- page_at i ;; ret (search_for (pcontent p) needle).

(** [for rect in rects]: iterating over [None] raises a [TypeError]. *)
Definition iter_rects (rects : option (list Rect)) : M (list Rect) :=
  match rects with
  | Some l => ret l
  | None => raise "'NoneType' object is not iterable"
  end.

(** [page.get_images()] *)
Definition page_get_images (i : nat) : M (list Image) :=
  p <- page_at i ;; ret (get_images (pcontent p)).

(** [page.get_image_bbox(img[7])] *)
Definition page_get_image_bbox (i : nat) (img : Image) : M Rect :=
  p <- page_at i ;; ret (get_image_bbox (pcontent p) img).

(** [page.add_redact_annot(...)]: stages an annotation on page [i]. *)
Definition page_add_redact_annot (i : nat) (a : Annot) : M unit :=
  _ <- page_at i ;;
  (fun s => (Ok tt, mkSt (list_update i (fun p => mkPageSt (pcontent p) (pannots p ++ [a]))
                           (st_pages s)) (st_closed s) (st_trace s))) ;;;
  log (EvStage i a).

(** [page.apply_redactions(images=pol)]: commits the page's annotations;
    the exception raised while drawing the overlay texts propagates after
    the page has been rewritten. *)
Definition page_apply_redactions (i : nat) (pol : ImagePolicy) : M unit :=
  p <- page_at i ;;
  let r := apply_redactions (pcontent p) (pannots p) pol in
  (fun s => (Ok tt, mkSt (list_update i (fun _ => mkPageSt (fst r) []) (st_pages s))
                         (st_closed s) (st_trace s))) ;;;
  log (EvCommit i pol) ;;;
  match snd r with
  | None => ret tt
  | Some e => raise e
  end.

(** [doc.save(output)] *)
Definition doc_save : M unit := log EvSave.

(** [doc.close()] *)
Definition doc_close : M unit :=
  fun s => (Ok tt, mkSt (st_pages s) true (st_trace s)).

(** Python's [range(n)] *)
Definition range (n : nat) : list nat := seq 0 n.

End Primitives.

(** ** Python string helpers *)

Definition chr (n : nat) : string := String (ascii_of_nat n) EmptyString.
Definition NL : string := chr 10.

(** [str.isspace()] on the code points below 256. *)
Definition py_isspace (c : ascii) : bool :=
  let n := nat_of_ascii c in
  (Nat.leb 9 n && Nat.leb n 13) || (Nat.leb 28 n && Nat.leb n 31) ||
  Nat.eqb n 32 || Nat.eqb n 133 || Nat.eqb n 160.

Fixpoint split_aux (s : string) (cur : list ascii) : list string :=
  match s with
  | EmptyString =>
      match cur with [] => [] | _ => [string_of_list_ascii (rev cur)] end
  | String c s' =>
      if py_isspace c then
        match cur with
        | [] => split_aux s' []
        | _ => string_of_list_ascii (rev cur) :: split_aux s' []
        end
      else split_aux s' (c :: cur)
  end.

(** [str.split()] with no separator: the maximal runs of non-whitespace. *)
Definition py_split (s : string) : list string := split_aux s [].

(** [sep.join(parts)] *)
Fixpoint py_join (sep : string) (parts : list string) : string :=
  match parts with
  | [] => EmptyString
  | [p] => p
  | p :: ps => p ++ sep ++ py_join sep ps
  end.

(** ** extract_text_from_pdf *)

Section Extract.
Context {E : PdfEngine}.

Inductive ExtractOut :=
| XText (s : string)
| XJson (total_pages : nat) (pages : list (Z * string * nat))
| XBlocks (total_pages : nat) (pages : list (Z * Blocks))
| XError (msg : string).

(** [format == "json"]: one entry per page, [get_text] called twice. *)
Fixpoint extract_json_pages (ps : list Z) : M (list (Z * string * nat)) :=
  match ps with
  | [] => ret []
  | p :: ps' =>
      i <- doc_getitem p ;;
      t <- page_get_text i ;;
      t' <- page_get_text i ;;
      rest <- extract_json_pages ps' ;;
      ret ((p, t, List.length (py_split t')) :: rest)
  end.

Fixpoint extract_block_pages (ps : list Z) : M (list (Z * Blocks)) :=
  match ps with
  | [] => ret []
  | p :: ps' =>
      i <- doc_getitem p ;;
      b <- page_get_blocks i ;;
      rest <- extract_block_pages ps' ;;
      ret ((p, b) :: rest)
  end.

Fixpoint extract_text_parts (ps : list Z) : M (list string) :=
  match ps with
  | [] => ret []
  | p :: ps' =>
      i <- doc_getitem p ;;
      t <- page_get_text i ;;
      rest <- extract_text_parts ps' ;;
      ret (("=== Page " ++ Z_to_string (p + 1) ++ " ===" ++ NL ++ t ++ NL) :: rest)
  end.

(** The body of the [try] block, from [pymupdf.open] on. *)
Definition extract_text_body (page_number : option Z) (format : string) : M ExtractOut :=
  pages_or_error <-
    match page_number with
    | Some pn =>
        (* [page_number < 0 or page_number >= len(doc)] *)
        bad <- (if (pn <? 0)%Z then ret true
                else n <- doc_len ;; ret (Z.of_nat n <=? pn)%Z) ;;
        if bad then
          doc_close ;;;
          n <- doc_len ;;
          ret (inr (XError ("Invalid page number. PDF has " ++ nat_to_string n ++ " pages")))
        else ret (inl [pn])
    | None => n <- doc_len ;; ret (inl (map Z.of_nat (range n)))
    end ;;
  match pages_or_error with
  | inr early => ret early
  | inl pages_to_process =>
      if String.eqb format "json" then
        n <- doc_len ;;
        ps <- extract_json_pages pages_to_process ;;
        doc_close ;;; ret (XJson n ps)
      else if String.eqb format "blocks" then
        n <- doc_len ;;
        ps <- extract_block_pages pages_to_process ;;
        doc_close ;;; ret (XBlocks n ps)
      else
        parts <- extract_text_parts pages_to_process ;;
        doc_close ;;; ret (XText (py_join NL parts))
  end.

Definition extract_text_from_pdf (page_number : option Z) (format : string) : M ExtractOut :=
  try_except (extract_text_body page_number format) (fun e => ret (XError e)).

End Extract.

(** ** search_text_in_pdf *)

(** Python's [re] module, used by the regex branch: [re_finditer pat text
    ignorecase] is the list of [match.group()] of [re.finditer]. *)
Class PyRe := { re_finditer : string -> string -> bool -> list string }.

(** [pymupdf.TEXT_PRESERVE_WHITESPACE] *)
Definition TEXT_PRESERVE_WHITESPACE : Z := 1.

Section Search.
Context {E : PdfEngine} {RE : PyRe}.

Record Match := mkMatch { m_page : Z; m_text : string; m_bbox : Rect; m_type : string }.

Inductive SearchOut :=
| SResult (search_string : string) (total_matches : nat) (matches : list Match)
| SError (msg : string).

Definition rect_matches (p : Z) (txt : string) (kind : string) (rects : list Rect) : list Match :=
  map (fun r => mkMatch p txt r kind) rects.

Fixpoint regex_hits (p : Z) (i : nat) (groups : list string) : M (list Match) :=
  match groups with
  | [] => ret []
  | g :: gs =>
      found <- page_search_for i g ;;
      rects <- iter_rects found ;;
      rest <- regex_hits p i gs ;;
      ret (rect_matches p g "regex" rects ++ rest)%list
  end.

Fixpoint search_pages (search_string : string) (case_sensitive use_regex : bool)
    (ps : list Z) (matches : list Match) : M (list Match) :=
  match ps with
  | [] => ret matches
  | p :: ps' =>
      i <- doc_getitem p ;;
      hits <-
        (if use_regex then
           text <- page_get_text i ;;
           let ignorecase := negb case_sensitive in
           regex_hits p i (re_finditer search_string text ignorecase)
         else
           let flags := if negb case_sensitive
                        then Z.lor 0 TEXT_PRESERVE_WHITESPACE else 0%Z in
           found <- page_search_for i search_string ;;
           rects <- iter_rects found ;;
           ret (rect_matches p search_string "exact" rects)) ;;
      search_pages search_string case_sensitive use_regex ps' (matches ++ hits)%list
  end.

Definition search_text_body (search_string : string) (case_sensitive use_regex : bool)
    (page_number : option Z) : M SearchOut :=
  pages_to_search <-
    (match page_number with
     | Some pn => ret [pn]
     | None => n <- doc_len ;; ret (map Z.of_nat (range n))
     end) ;;
  matches <- search_pages search_string case_sensitive use_regex pages_to_search [] ;;
  doc_close ;;;
  ret (SResult search_string (List.length matches) matches).

Definition search_text_in_pdf (search_string : string) (case_sensitive use_regex : bool)
    (page_number : option Z) : M SearchOut :=
  try_except (search_text_body search_string case_sensitive use_regex page_number)
             (fun e => ret (SError e)).

End Search.

(** ** redact_text_by_search *)

Section RedactSearch.
Context {E : PdfEngine}.

Inductive RedactSearchOut :=
| RSResult (total_redactions pages_modified : nat) (summary : list (nat * nat))
           (search_strings : list string)
| RSError (msg : string).

(** [for rect in rects: page.add_redact_annot(...); page_redactions += 1;
    total_redactions += 1] *)
Fixpoint stage_rects (i : nat) (mk : Rect -> Annot) (rects : list Rect)
    (page_redactions total : nat) : M (nat * nat) :=
  match rects with
  | [] => ret (page_redactions, total)
  | r :: rs =>
      page_add_redact_annot i (mk r) ;;;
      stage_rects i mk rs (S page_redactions) (S total)
  end.

(** [for search_string in search_strings: rects = page.search_for(search_string); ...] *)
Fixpoint stage_patterns (i : nat) (mk : Rect -> Annot) (pats : list string)
    (page_redactions total : nat) : M (nat * nat) :=
  match pats with
  | [] => ret (page_redactions, total)
  | p :: ps =>
      found <- page_search_for i p ;;
      rects <- iter_rects found ;;
      r <- stage_rects i mk rects page_redactions total ;;
      stage_patterns i mk ps (fst r) (snd r)
  end.

(** The loop over [range(len(doc))]. *)
Fixpoint redact_search_pages (mk : Rect -> Annot) (pats : list string) (ps : list nat)
    (total : nat) (summary : list (nat * nat)) : M (nat * list (nat * nat)) :=
  match ps with
  | [] => ret (total, summary)
  | p :: ps' =>
      i <- doc_getitem (Z.of_nat p) ;;
      r <- stage_patterns i mk pats 0 total ;;
      let page_redactions := fst r in
      summary' <-
        (if Nat.ltb 0 page_redactions then
           page_apply_redactions i PDF_REDACT_IMAGE_DEFAULT ;;;
           ret (summary ++ [(p, page_redactions)])%list
         else ret summary) ;;
      redact_search_pages mk pats ps' (snd r) summary'
  end.

Definition redact_text_by_search_body (search_strings : list string) (case_sensitive : bool)
    (fill_color : Color) (overlay_text : string) (text_color : Color) : M RedactSearchOut :=
  let mk := fun r => mkAnnot r (PStr overlay_text) fill_color (Some text_color) in
  n <- doc_len ;;
  r <- redact_search_pages mk search_strings (range n) 0 [] ;;
  doc_save ;;; doc_close ;;;
  ret (RSResult (fst r) (List.length (snd r)) (snd r) search_strings).

Definition redact_text_by_search (search_strings : list string) (case_sensitive : bool)
    (fill_color : Color) (overlay_text : string) (text_color : Color) : M RedactSearchOut :=
  try_except (redact_text_by_search_body search_strings case_sensitive fill_color
                overlay_text text_color)
             (fun e => ret (RSError e)).

End RedactSearch.

(** ** Python operations on [Any] values *)

Section PyOps.
Context {E : PdfEngine}.

Definition py_typename (v : PyVal) : string :=
  match v with
  | PNone => "NoneType" | PBool _ => "bool" | PInt _ => "int" | PFloat _ => "float"
  | PStr _ => "str" | PList _ => "list" | PDict _ => "dict"
  end.

(** [bool(v)] *)
Definition py_truthy (v : PyVal) : bool :=
  match v with
  | PNone => false
  | PBool b => b
  | PInt z => negb (Z.eqb z 0)
  | PFloat q => negb (Qeq_bool q 0)
  | PStr s => negb (String.eqb s "")
  | PList l => match l with [] => false | _ => true end
  | PDict d => match d with [] => false | _ => true end
  end.

(** The numeric value of an int, bool or float, for comparisons. *)
Definition py_num (v : PyVal) : option Q :=
  match v with
  | PBool b => Some (if b then 1 else 0)%Q
  | PInt z => Some (inject_Z z)
  | PFloat q => Some q
  | _ => None
  end.

(** [v < z] and [v >= z] against an int. *)
Definition py_lt_int (v : PyVal) (z : Z) : M bool :=
  match py_num v with
  | Some q => ret (negb (Qle_bool (inject_Z z) q))
  | None => raise ("'<' not supported between instances of '" ++ py_typename v ++ "' and 'int'")
  end.

Definition py_ge_int (v : PyVal) (z : Z) : M bool :=
  match py_num v with
  | Some q => ret (Qle_bool (inject_Z z) q)
  | None => raise ("'>=' not supported between instances of '" ++ py_typename v ++ "' and 'int'")
  end.

(** [len(v)] *)
Definition py_len (v : PyVal) : M nat :=
  match v with
  | PStr s => ret (String.length s)
  | PList l => ret (List.length l)
  | PDict d => ret (List.length d)
  | _ => raise ("object of type '" ++ py_typename v ++ "' has no len()")
  end.

(** [d.get(k, default)] *)
Fixpoint py_get (d : list (string * PyVal)) (k : string) (default : PyVal) : PyVal :=
  match d with
  | [] => default
  | (k', v) :: d' => if String.eqb k k' then v else py_get d' k default
  end.

(** [pymupdf.Rect(v)] from a sequence of four numbers; the engine rejects
    any other argument. *)
Definition py_rect (v : PyVal) : M Rect :=
  match v with
  | PList [a; b; c; d] =>
      match py_num a, py_num b, py_num c, py_num d with
      | Some a', Some b', Some c', Some d' => ret (mkRect a' b' c' d')
      | _, _, _, _ => raise "Rect: bad args"
      end
  | _ => raise "Rect: bad args"
  end.

(** [doc[v]] for a page number of type [Any]: pymupdf takes int indices only. *)
Definition doc_getitem_any (v : PyVal) : M nat :=
  match v with
  | PInt z => doc_getitem z
  | _ => raise ("page " ++ py_typename v ++ " not in document")
  end.

End PyOps.

(** ** redact_by_coordinates *)

Section RedactCoords.
Context {E : PdfEngine}.

(** One entry of [applied_redactions]. *)
Inductive CoordEntry :=
| CErrPage (page_num : PyVal)   (** [{"status": "error", "message": f"Invalid page number {page_num}"}] *)
| CErrBbox                      (** [{"status": "error", "message": "Invalid bbox format. ..."}] *)
| CApplied (page_num bbox : PyVal).  (** [{"page": ..., "bbox": ..., "status": "applied"}] *)

Definition entry_status (c : CoordEntry) : string :=
  match c with CErrPage _ | CErrBbox => "error" | CApplied _ _ => "applied" end.

Inductive RedactCoordsOut :=
| RCResult (total_redactions : nat) (redactions : list CoordEntry)
| RCError (msg : string).

Definition Directive := list (string * PyVal).

(** One iteration of [for redaction in redactions]. *)
Definition coord_step (fill_color : Color) (overlay_text : string) (redaction : Directive)
    : M CoordEntry :=
  let page_num := py_get redaction "page" (PInt 0) in
  let bbox := py_get redaction "bbox" PNone in
  let redact_text := py_get redaction "text" (PStr overlay_text) in
  lt0 <- py_lt_int page_num 0 ;;
  bad_page <- (if lt0 then ret true else n <- doc_len ;; py_ge_int page_num (Z.of_nat n)) ;;
  if bad_page then ret (CErrPage page_num)
  else
    bad_bbox <- (if negb (py_truthy bbox) then ret true
                 else l <- py_len bbox ;; ret (negb (Nat.eqb l 4))) ;;
    if bad_bbox then ret CErrBbox
    else
      i <- doc_getitem_any page_num ;;
      rect <- py_rect bbox ;;
      page_add_redact_annot i (mkAnnot rect redact_text fill_color None) ;;;
      ret (CApplied page_num bbox).

Fixpoint coord_loop (fill_color : Color) (overlay_text : string) (ds : list Directive)
    (applied : list CoordEntry) : M (list CoordEntry) :=
  match ds with
  | [] => ret applied
  | d :: ds' =>
      c <- coord_step fill_color overlay_text d ;;
      coord_loop fill_color overlay_text ds' (applied ++ [c])%list
  end.

(** [for page in doc: page.apply_redactions()] *)
Fixpoint apply_all (ps : list nat) : M unit :=
  match ps with
  | [] => ret tt
  | i :: ps' => page_apply_redactions i PDF_REDACT_IMAGE_DEFAULT ;;; apply_all ps'
  end.

Definition count_applied (cs : list CoordEntry) : nat :=
  List.length (filter (fun c => String.eqb (entry_status c) "applied") cs).

Definition redact_by_coordinates_body (redactions : list Directive) (fill_color : Color)
    (overlay_text : string) : M RedactCoordsOut :=
  applied <- coord_loop fill_color overlay_text redactions [] ;;
  n <- doc_len ;;
  apply_all (range n) ;;;
  doc_save ;;; doc_close ;;;
  ret (RCResult (count_applied applied) applied).

Definition redact_by_coordinates (redactions : list Directive) (fill_color : Color)
    (overlay_text : string) : M RedactCoordsOut :=
  try_except (redact_by_coordinates_body redactions fill_color overlay_text)
             (fun e => ret (RCError e)).

End RedactCoords.

(** ** redact_images_in_pdf *)

Section RedactImages.
Context {E : PdfEngine}.

Inductive RedactImagesOut :=
| RIResult (total_images_redacted pages_processed : nat) (summary : list (Z * nat))
| RIError (msg : string).

Definition WHITE : Color := (1, 1, 1)%Q.

(** [for img_index, img in enumerate(images): ...] *)
Fixpoint stage_images (i : nat) (fill_color : Color) (overlay_text : string)
    (imgs : list Image) (page_images total : nat) : M (nat * nat) :=
  match imgs with
  | [] => ret (page_images, total)
  | img :: imgs' =>
      bbox <- page_get_image_bbox i img ;;
      if is_infinite bbox then stage_images i fill_color overlay_text imgs' page_images total
      else
        page_add_redact_annot i (mkAnnot bbox (PStr overlay_text) fill_color (Some WHITE)) ;;;
        stage_images i fill_color overlay_text imgs' (S page_images) (S total)
  end.

Fixpoint redact_image_pages (fill_color : Color) (overlay_text : string) (ps : list Z)
    (total : nat) (summary : list (Z * nat)) : M (nat * list (Z * nat)) :=
  match ps with
  | [] => ret (total, summary)
  | p :: ps' =>
      n <- doc_len ;;
      if ((p <? 0) || (Z.of_nat n <=? p))%Z then
        redact_image_pages fill_color overlay_text ps' total summary
      else
        i <- doc_getitem p ;;
        images <- page_get_images i ;;
        r <- stage_images i fill_color overlay_text images 0 total ;;
        let page_images := fst r in
        summary' <-
          (if Nat.ltb 0 page_images then
             page_apply_redactions i PDF_REDACT_IMAGE_REMOVE ;;;
             ret (summary ++ [(p, page_images)])%list
           else ret summary) ;;
        redact_image_pages fill_color overlay_text ps' (snd r) summary'
  end.

Definition redact_images_in_pdf_body (page_numbers : option (list Z)) (fill_color : Color)
    (overlay_text : string) : M RedactImagesOut :=
  pages_to_process <-
    (match page_numbers with
     | Some ps => ret ps
     | None => n <- doc_len ;; ret (map Z.of_nat (range n))
     end) ;;
  r <- redact_image_pages fill_color overlay_text pages_to_process 0 [] ;;
  doc_save ;;; doc_close ;;;
  ret (RIResult (fst r) (List.length (snd r)) (snd r)).

Definition redact_images_in_pdf (page_numbers : option (list Z)) (fill_color : Color)
    (overlay_text : string) : M RedactImagesOut :=
  try_except (redact_images_in_pdf_body page_numbers fill_color overlay_text)
             (fun e => ret (RIError e)).

End RedactImages.

(** ** verify_redactions *)

Section Verify.
Context {E : PdfEngine}.

Record StringCheck := mkStringCheck {
  sc_search_string : string;
  sc_found_in_redacted : bool;
  sc_pages_found : list nat;
  sc_status : string }.

Record TextCmp := mkTextCmp {
  tc_page : nat;
  tc_original_word_count : nat;
  tc_redacted_word_count : nat;
  tc_words_removed : Z;
  tc_text_modified : bool }.

Record Verification := mkVerification {
  v_original_pages : nat;
  v_redacted_pages : nat;
  v_pages_match : bool;
  v_string_checks : list StringCheck;
  v_text_comparison : list TextCmp;
  v_status : string;
  v_message : string }.

(** [for page_num in range(len(redact_doc)): rects = page.search_for(search_str);
    if rects: found_in_redacted = True; pages_found.append(page_num)] *)
Fixpoint scan_pages (search_str : string) (page_num : nat) (pgs : list Page)
    (found : bool) (pages_found : list nat) : bool * list nat :=
  match pgs with
  | [] => (found, pages_found)
  | pg :: pgs' =>
      match search_for pg search_str with
      | Some (_ :: _) =>
          scan_pages search_str (S page_num) pgs' true (pages_found ++ [page_num])%list
      | _ => scan_pages search_str (S page_num) pgs' found pages_found
      end
  end.

Definition string_check (redact_doc : list Page) (search_str : string) : StringCheck :=
  let r := scan_pages search_str 0 redact_doc false [] in
  mkStringCheck search_str (fst r) (snd r) (if fst r then "FAIL" else "PASS").

(** [for page_num in range(min(len(orig_doc), len(redact_doc)))] *)
Fixpoint compare_pages (page_num : nat) (orig redact : list Page) : list TextCmp :=
  match orig, redact with
  | o :: os, r :: rs =>
      let orig_text := get_text o in
      let redact_text := get_text r in
      let orig_words := List.length (py_split orig_text) in
      let redact_words := List.length (py_split redact_text) in
      mkTextCmp page_num orig_words redact_words
        (Z.of_nat orig_words - Z.of_nat redact_words)%Z
        (negb (String.eqb orig_text redact_text))
      :: compare_pages (S page_num) os rs
  | _, _ => []
  end.

(** The report built from the two open documents; both are only read. *)
Definition verify_redactions (orig_doc redact_doc : list Page)
    (search_strings : option (list string)) : Verification :=
  let string_checks :=
    match search_strings with
    | Some ss => if py_truthy (PList (map PStr ss)) then map (string_check redact_doc) ss else []
    | None => []
    end in
  let text_comparison := compare_pages 0 orig_doc redact_doc in
  let all_checks_passed :=
    forallb (fun c => String.eqb (sc_status c) "PASS") string_checks in
  mkVerification (List.length orig_doc) (List.length redact_doc)
    (Nat.eqb (List.length orig_doc) (List.length redact_doc))
    string_checks text_comparison
    (if all_checks_passed then "PASS" else "FAIL")
    (if all_checks_passed then "All redactions verified successfully"
     else "Some redactions may have failed").

End Verify.

(** ** The document session store *)

(** Modelled from the spec: the session store ([DOCUMENT_STORE], [load_pdf],
    [close_pdf] and the lookup every session tool performs) is called by the
    repository's tests and examples but is not among its sources.  It follows
    spec section 4.1: a process-wide dict from identifier to open document;
    [load] releases a handle already stored under the identifier and installs
    the new one (last write wins); [get] and [close] fail with a
    [NotFoundError] carrying the live identifiers when the identifier is
    absent; [close] releases the handle and removes the entry. *)
Module SessionStore.

Section Store.
Context {E : PdfEngine}.
(** Document sources (a path or decoded bytes), how the engine opens one,
    and the identifier derived from a source when the caller gives none. *)
Variable Source : Type.
Variable engine_open : Source -> option (list Page).
Variable derive_id : Source -> string.

Inductive StoreError :=
| NotFoundError (live : list string)
| OpenError.

(** A Python dict: insertion-ordered, one entry per key. *)
Definition Store := list (string * St).

Definition keys (s : Store) : list string := map fst s.

Fixpoint lookup (id : string) (s : Store) : option St :=
  match s with
  | [] => None
  | (k, d) :: s' => if String.eqb k id then Some d else lookup id s'
  end.

(** [store[id] = d]: replaces in place, or appends a new key. *)
Fixpoint assign (id : string) (d : St) (s : Store) : Store :=
  match s with
  | [] => [(id, d)]
  | (k, d') :: s' => if String.eqb k id then (k, d) :: s' else (k, d') :: assign id d s'
  end.

(** [del store[id]] *)
Fixpoint remove (id : string) (s : Store) : Store :=
  match s with
  | [] => []
  | (k, d) :: s' => if String.eqb k id then s' else (k, d) :: remove id s'
  end.

Record SessionInfo := mkSessionInfo { si_identifier : string; si_pages : nat }.

Definition load (src : Source) (identifier : option string) (s : Store)
    : (StoreError + (SessionInfo * Store)) :=
  match engine_open src with
  | None => inl OpenError
  | Some pgs =>
      let id := match identifier with Some i => i | None => derive_id src end in
      (* the previous handle, if any, is released by being overwritten *)
      inr (mkSessionInfo id (List.length pgs), assign id (open_doc pgs) s)
  end.

Definition get (id : string) (s : Store) : StoreError + St :=
  match lookup id s with
  | Some d => inr d
  | None => inl (NotFoundError (keys s))
  end.

Definition close (id : string) (s : Store) : StoreError + Store :=
  match lookup id s with
  | Some d => inr (remove id s)
  | None => inl (NotFoundError (keys s))
  end.

(** Any session tool: resolve the identifier with [get], run the tool on
    the stored document, keep the document's new state in the store. *)
Definition with_session {A} (id : string) (tool : M A) (s : Store)
    : StoreError + (Res A * Store) :=
  match get id s with
  | inl e => inl e
  | inr d => let (r, d') := tool d in inr (r, assign id d' s)
  end.

End Store.

Arguments load {E Source} engine_open derive_id src identifier s.

End SessionStore.

(** ** base64 (Python's [base64.b64encode] and [base64.b64decode])

    Bytes are [Byte.byte]; a Python [str] argument is a Rocq [string] whose
    characters are code points below 256. *)

Section Base64.

Definition byte_to_Z (b : Byte.byte) : Z := Z.of_N (Byte.to_N b).

(** Storing an int into an [unsigned char]: the low eight bits. *)
Definition byte_of_Z (z : Z) : Byte.byte :=
  match Byte.of_N (Z.to_N (Z.land z 255)) with
  | Some b => b
  | None => Byte.x00
  end.

Definition b64_alphabet : string :=
  "ABCDEFGHIJKLMNOPQRSTUVWXYZabcdefghijklmnopqrstuvwxyz0123456789+/".

Definition BASE64_PAD : ascii := "="%char.

(** [table_b2a_base64[v]] for a sextet [v]. *)
Definition b64_char (v : Z) : ascii :=
  match String.get (Z.to_nat v) b64_alphabet with
  | Some c => c
  | None => BASE64_PAD
  end.

(** [table_a2b_base64[c]]: [None] stands for the table's invalid entries. *)
Definition b64_val (c : ascii) : option Z :=
  let n := nat_of_ascii c in
  if Nat.leb 65 n && Nat.leb n 90 then Some (Z.of_nat n - 65)%Z
  else if Nat.leb 97 n && Nat.leb n 122 then Some (Z.of_nat n - 71)%Z
  else if Nat.leb 48 n && Nat.leb n 57 then Some (Z.of_nat n + 4)%Z
  else if Nat.eqb n 43 then Some 62%Z
  else if Nat.eqb n 47 then Some 63%Z
  else None.

(** [binascii.b2a_base64(s, newline=False)], three input bytes at a time:
    the full groups, then the last one or two bytes padded with [=]. *)
Fixpoint b64encode (bs : list Byte.byte) : string :=
  match bs with
  | a :: b :: c :: rest =>
      let a := byte_to_Z a in let b := byte_to_Z b in let c := byte_to_Z c in
      String (b64_char (Z.shiftr a 2))
        (String (b64_char (Z.lor (Z.shiftl (Z.land a 3) 4) (Z.shiftr b 4)))
          (String (b64_char (Z.lor (Z.shiftl (Z.land b 15) 2) (Z.shiftr c 6)))
            (String (b64_char (Z.land c 63)) (b64encode rest))))
  | [a; b] =>
      let a := byte_to_Z a in let b := byte_to_Z b in
      String (b64_char (Z.shiftr a 2))
        (String (b64_char (Z.lor (Z.shiftl (Z.land a 3) 4) (Z.shiftr b 4)))
          (String (b64_char (Z.shiftl (Z.land b 15) 2))
            (String BASE64_PAD EmptyString)))
  | [a] =>
      let a := byte_to_Z a in
      String (b64_char (Z.shiftr a 2))
        (String (b64_char (Z.shiftl (Z.land a 3) 4))
          (String BASE64_PAD (String BASE64_PAD EmptyString)))
  | [] => EmptyString
  end.

(** The end of [binascii.a2b_base64] (non-strict mode), reached when the
    input is exhausted without a closing pad sequence. *)
Definition a2b_finish (quad_pos : nat) (out : list Byte.byte) : string + list Byte.byte :=
  match quad_pos with
  | 0 => inr out
  | 1 => inl ("Invalid base64-encoded string: number of data characters ("
              ++ nat_to_string (List.length out / 3 * 4 + 1)
              ++ ") cannot be 1 more than a multiple of 4")
  | _ => inl "Incorrect padding"
  end.

(** The main loop of [binascii.a2b_base64] with [strict_mode=False]:
    characters outside the alphabet are skipped; a pad character counts
    only after the second data character of a quad, and a complete pad
    sequence ends the decoding. *)
Fixpoint a2b_loop (s : string) (quad_pos pads : nat) (leftchar : Z)
    (out : list Byte.byte) : string + list Byte.byte :=
  match s with
  | EmptyString => a2b_finish quad_pos out
  | String c s' =>
      if Ascii.eqb c BASE64_PAD then
        (* [if (quad_pos >= 2 && quad_pos + ++pads >= 4) goto done;] *)
        if Nat.leb 2 quad_pos then
          if Nat.leb 4 (quad_pos + S pads) then inr out
          else a2b_loop s' quad_pos (S pads) leftchar out
        else a2b_loop s' quad_pos pads leftchar out
      else
        match b64_val c with
        | None => a2b_loop s' quad_pos pads leftchar out
        | Some v =>
            match quad_pos with
            | 0 => a2b_loop s' 1 0 v out
            | 1 => a2b_loop s' 2 0 (Z.land v 15)
                     (out ++ [byte_of_Z (Z.lor (Z.shiftl leftchar 2) (Z.shiftr v 4))])%list
            | 2 => a2b_loop s' 3 0 (Z.land v 3)
                     (out ++ [byte_of_Z (Z.lor (Z.shiftl leftchar 4) (Z.shiftr v 2))])%list
            | _ => a2b_loop s' 0 0 0
                     (out ++ [byte_of_Z (Z.lor (Z.shiftl leftchar 6) v)])%list
            end
        end
  end.

Fixpoint is_ascii_str (s : string) : bool :=
  match s with
  | EmptyString => true
  | String c s' => Nat.ltb (nat_of_ascii c) 128 && is_ascii_str s'
  end.

(** [base64.b64decode(s)] for a [str]: encoded to ASCII first, then
    [binascii.a2b_base64(s, strict_mode=False)]; [inl] is the message of the
    exception raised. *)
Definition b64decode (s : string) : string + list Byte.byte :=
  if is_ascii_str s then a2b_loop s 0 0 0 []
  else inl "string argument should contain only ASCII characters".

End Base64.

(** ** resolve_pdf_path (pathlib on POSIX) *)

Section Paths.

Definition SEP : ascii := "/"%char.

(** [posixpath.splitroot(p)] without the (always empty) drive: the root
    ["/"] or ["//"] (exactly two leading slashes) or [""], and the rest. *)
Definition splitroot (p : string) : string * string :=
  match p with
  | String c1 rest =>
      if Ascii.eqb c1 SEP then
        match rest with
        | String c2 rest2 =>
            if Ascii.eqb c2 SEP then
              match rest2 with
              | String c3 _ => if Ascii.eqb c3 SEP then ("/", rest) else ("//", rest2)
              | EmptyString => ("//", rest2)
              end
            else ("/", rest)
        | EmptyString => ("/", rest)
        end
      else ("", p)
  | EmptyString => ("", p)
  end.

(** [s.split(sep)] *)
Fixpoint str_split (sep : ascii) (s : string) : list string :=
  match s with
  | EmptyString => [EmptyString]
  | String c s' =>
      if Ascii.eqb c sep then EmptyString :: str_split sep s'
      else match str_split sep s' with
           | x :: xs => String c x :: xs
           | [] => [String c EmptyString]
           end
  end.

(** A parsed [PurePosixPath]: its root and its parts. *)
Record PurePath := mkPurePath { p_root : string; p_parts : list string }.

(** [PurePath._parse_path]: the parts are the pieces of the rest that are
    neither empty nor ["."]. *)
Definition parse_path (path : string) : PurePath :=
  let '(root, rel) := splitroot path in
  mkPurePath root (filter (fun x => negb (String.eqb x "") && negb (String.eqb x "."))
                          (str_split SEP rel)).

(** [str(path)]: [root + "/".join(parts)], or ["."] when that is empty. *)
Definition path_to_str (p : PurePath) : string :=
  let s := p_root p ++ py_join "/" (p_parts p) in
  if String.eqb s "" then "." else s.

Definition path_is_absolute (p : PurePath) : bool := negb (String.eqb (p_root p) "").

Fixpoint ends_with_sep (s : string) : bool :=
  match s with
  | EmptyString => false
  | String c EmptyString => Ascii.eqb c SEP
  | String _ s' => ends_with_sep s'
  end.

Definition starts_with_sep (s : string) : bool :=
  match s with
  | String c _ => Ascii.eqb c SEP
  | EmptyString => false
  end.

(** [posixpath.join(a, b)] *)
Definition posix_join (a b : string) : string :=
  if starts_with_sep b then b
  else if String.eqb a "" || ends_with_sep a then a ++ b
  else a ++ "/" ++ b.

(** [resolve_pdf_path]: [PDF_BASE_DIR] is [None] or the string of the base
    [Path] (a [Path] object is always true); [PDF_BASE_DIR / path] parses
    the two strings joined. *)
Definition resolve_pdf_path (PDF_BASE_DIR : option string) (pdf_path : string) : string :=
  let path := parse_path pdf_path in
  match PDF_BASE_DIR with
  | Some base =>
      if negb (path_is_absolute path)
      then path_to_str (parse_path (posix_join base pdf_path))
      else pdf_path
  | None => pdf_path
  end.

End Paths.

(** ** get_pdf_info *)

(** The page and document attributes [get_pdf_info] reads besides the
    engine's primitives. *)
Class PdfInfoEngine {E : PdfEngine} := {
  Metadata : Type;
  Link : Type;
  page_width : Page -> Q;
  page_height : Page -> Q;
  page_rotation : Page -> Z;
  page_get_links : Page -> list Link }.

Section Info.
Context {E : PdfEngine} {I : PdfInfoEngine}.

Record PageInfo := mkPageInfo {
  pi_page_number : nat;
  pi_width : Q;
  pi_height : Q;
  pi_rotation : Z;
  pi_image_count : nat;
  pi_link_count : nat }.

(** [filename] is present in [get_pdf_info] only. *)
Inductive InfoOut :=
| IResult (filename : option string) (pages : nat) (metadata : Metadata)
          (is_encrypted : bool) (page_info : list PageInfo)
| IError (msg : string).

(** [for page_num in range(len(doc)): page = doc[page_num]; ...] *)
Fixpoint page_infos (ks : list nat) : M (list PageInfo) :=
  match ks with
  | [] => ret []
  | k :: ks' =>
      i <- doc_getitem (Z.of_nat k) ;;
      p <- page_at i ;;
      images <- page_get_images i ;;
      let pg := pcontent p in
      rest <- page_infos ks' ;;
      ret (mkPageInfo k (page_width pg) (page_height pg) (page_rotation pg)
             (List.length images) (List.length (page_get_links pg)) :: rest)
  end.

(** The body after [pymupdf.open]; [metadata] and [is_encrypted] are the
    attributes of the opened document. *)
Definition get_pdf_info_body (filename : option string) (metadata : Metadata)
    (is_encrypted : bool) : M InfoOut :=
  n <- doc_len ;;
  infos <- page_infos (range n) ;;
  doc_close ;;;
  ret (IResult filename n metadata is_encrypted infos).

(** [get_pdf_info(pdf_path)] on the document opened from
    [resolve_pdf_path(pdf_path)]. *)
Definition get_pdf_info (PDF_BASE_DIR : option string) (pdf_path : string)
    (metadata : Metadata) (is_encrypted : bool) : M InfoOut :=
  try_except (get_pdf_info_body (Some (resolve_pdf_path PDF_BASE_DIR pdf_path))
                metadata is_encrypted)
             (fun e => ret (IError e)).

End Info.

(** ** The base64 tools *)

(** Opening a document from bytes and saving one to a buffer. *)
Class PdfStream {E : PdfEngine} := {
  (** [pymupdf.open(stream=data, filetype="pdf")]: the pages, or the
      message of the exception raised *)
  open_stream : list Byte.byte -> string + list Page;
  (** [doc.save(buffer)]: the bytes written for the pages and their
      pending annotations *)
  write_pdf : list (Page * list Annot) -> list Byte.byte }.

Section Base64Tools.
Context {E : PdfEngine} {PS : PdfStream} {RE : PyRe}.

Definition page_pairs (ps : list PageSt) : list (Page * list Annot) :=
  map (fun p => (pcontent p, pannots p)) ps.

(** [output_buffer = io.BytesIO(); doc.save(output_buffer)], then
    [output_buffer.read()] *)
Definition doc_save_buffer : M (list Byte.byte) :=
  fun s => (Ok (write_pdf (page_pairs (st_pages s))),
            mkSt (st_pages s) (st_closed s) (st_trace s ++ [EvSave])%list).

(** [try: pdf_bytes = base64.b64decode(pdf_data);
    doc = pymupdf.open(stream=pdf_bytes, filetype="pdf"); <body>
    except Exception as e: <error>], with the final document state when a
    document was opened. *)
Definition run_b64_with {A} (pdf_data : string) (body : list Byte.byte -> M A)
    (on_error : string -> A) : A * option St :=
  match b64decode pdf_data with
  | inl e => (on_error e, None)
  | inr pdf_bytes =>
      match open_stream pdf_bytes with
      | inl e => (on_error e, None)
      | inr pgs =>
          let '(r, s) := body pdf_bytes (open_doc pgs) in
          (match r with Ok a => a | Raise e => on_error e end, Some s)
      end
  end.

Definition run_b64 {A} (pdf_data : string) (body : M A) (on_error : string -> A)
    : A * option St :=
  run_b64_with pdf_data (fun _ => body) on_error.

(** The bodies of [extract_text_from_pdf_base64] and
    [search_text_in_pdf_base64] after opening are those of the path tools. *)
Definition extract_text_from_pdf_base64 (pdf_data : string) (page_number : option Z)
    (format : string) : ExtractOut * option St :=
  run_b64 pdf_data (extract_text_body page_number format) XError.

Definition search_text_in_pdf_base64 (pdf_data : string) (search_string : string)
    (case_sensitive use_regex : bool) (page_number : option Z) : SearchOut * option St :=
  run_b64 pdf_data (search_text_body search_string case_sensitive use_regex page_number)
          SError.

Inductive RedactSearchB64Out :=
| RSB64Result (redacted_pdf : string) (total_redactions pages_modified : nat)
              (summary : list (nat * nat)) (search_strings : list string)
| RSB64Error (msg : string).

Definition redact_text_by_search_base64_body (search_strings : list string)
    (case_sensitive : bool) (fill_color : Color) (overlay_text : string)
    (text_color : Color) : M RedactSearchB64Out :=
  let mk := fun r => mkAnnot r (PStr overlay_text) fill_color (Some text_color) in
  n <- doc_len ;;
  r <- redact_search_pages mk search_strings (range n) 0 [] ;;
  buf <- doc_save_buffer ;;
  doc_close ;;;
  ret (RSB64Result (b64encode buf) (fst r) (List.length (snd r)) (snd r) search_strings).

Definition redact_text_by_search_base64 (pdf_data : string) (search_strings : list string)
    (case_sensitive : bool) (fill_color : Color) (overlay_text : string)
    (text_color : Color) : RedactSearchB64Out * option St :=
  run_b64 pdf_data
    (redact_text_by_search_base64_body search_strings case_sensitive fill_color
       overlay_text text_color)
    RSB64Error.

Inductive RedactCoordsB64Out :=
| RCB64Result (redacted_pdf : string) (total_redactions : nat) (redactions : list CoordEntry)
| RCB64Error (msg : string).

Definition redact_by_coordinates_base64_body (redactions : list Directive)
    (fill_color : Color) (overlay_text : string) : M RedactCoordsB64Out :=
  applied <- coord_loop fill_color overlay_text redactions [] ;;
  n <- doc_len ;;
  apply_all (range n) ;;;
  buf <- doc_save_buffer ;;
  doc_close ;;;
  ret (RCB64Result (b64encode buf) (count_applied applied) applied).

Definition redact_by_coordinates_base64 (pdf_data : string) (redactions : list Directive)
    (fill_color : Color) (overlay_text : string) : RedactCoordsB64Out * option St :=
  run_b64 pdf_data (redact_by_coordinates_base64_body redactions fill_color overlay_text)
          RCB64Error.

Inductive RedactImagesB64Out :=
| RIB64Result (redacted_pdf : string) (total_images_redacted pages_processed : nat)
              (summary : list (Z * nat))
| RIB64Error (msg : string).

Definition redact_images_in_pdf_base64_body (page_numbers : option (list Z))
    (fill_color : Color) (overlay_text : string) : M RedactImagesB64Out :=
  pages_to_process <-
    (match page_numbers with
     | Some ps => ret ps
     | None => n <- doc_len ;; ret (map Z.of_nat (range n))
     end) ;;
  r <- redact_image_pages fill_color overlay_text pages_to_process 0 [] ;;
  buf <- doc_save_buffer ;;
  doc_close ;;;
  ret (RIB64Result (b64encode buf) (fst r) (List.length (snd r)) (snd r)).

Definition redact_images_in_pdf_base64 (pdf_data : string) (page_numbers : option (list Z))
    (fill_color : Color) (overlay_text : string) : RedactImagesB64Out * option St :=
  run_b64 pdf_data (redact_images_in_pdf_base64_body page_numbers fill_color overlay_text)
          RIB64Error.

Inductive VerifyOut :=
| VResult (v : Verification)
| VError (msg : string).

(** Both strings are decoded, then both documents opened; the report is the
    one of [verify_redactions]. *)
Definition verify_redactions_base64 (original_pdf_data redacted_pdf_data : string)
    (search_strings : option (list string)) : VerifyOut :=
  match b64decode original_pdf_data with
  | inl e => VError e
  | inr orig_bytes =>
      match b64decode redacted_pdf_data with
      | inl e => VError e
      | inr redact_bytes =>
          match open_stream orig_bytes with
          | inl e => VError e
          | inr orig_doc =>
              match open_stream redact_bytes with
              | inl e => VError e
              | inr redact_doc => VResult (verify_redactions orig_doc redact_doc search_strings)
              end
          end
      end
  end.

End Base64Tools.

Section InfoBase64.
Context {E : PdfEngine} {PS : PdfStream} {I : PdfInfoEngine}.

(** [get_pdf_info_base64]: no [filename]; [metadata] and [is_encrypted] are
    those of the document opened from the decoded bytes. *)
Definition get_pdf_info_base64 (pdf_data : string) (metadata_of : list Byte.byte -> Metadata)
    (is_encrypted_of : list Byte.byte -> bool) : InfoOut * option St :=
  run_b64_with pdf_data
    (fun pdf_bytes => get_pdf_info_body None (metadata_of pdf_bytes) (is_encrypted_of pdf_bytes))
    IError.

End InfoBase64.

(** ** A concrete engine, for running the tools on small documents *)

Module Toy.

(** A page: its text on one line (character [k] occupies [k..k+1] on the x
    axis) and the placement boxes of its images. *)
Record TPage := mkTPage { t_text : string; t_images : list Rect }.

Fixpoint prefix_of (p s : string) : bool :=
  match p, s with
  | EmptyString, _ => true
  | String c p', String d s' => Ascii.eqb c d && prefix_of p' s'
  | _, _ => false
  end.

(** Left-to-right, non-overlapping hits of [needle] in [s], as positions. *)
Fixpoint hits (fuel : nat) (needle s : string) (pos : nat) : list nat :=
  match fuel, s with
  | 0, _ => []
  | _, EmptyString => []
  | S fuel', String _ s' =>
      if prefix_of needle s then
        pos :: hits fuel' needle (substring (String.length needle) (String.length s) s)
                    (pos + String.length needle)
      else hits fuel' needle s' (S pos)
  end.

Definition char_box (k len : nat) : Rect :=
  mkRect (inject_Z (Z.of_nat k)) 0 (inject_Z (Z.of_nat (k + len))) 1.

Definition toy_search_for (pg : TPage) (needle : string) : option (list Rect) :=
  match needle with
  | EmptyString => None
  | _ => Some (map (fun k => char_box k (String.length needle))
                   (hits (String.length (t_text pg)) needle (t_text pg) 0))
  end.

Definition covered (k : nat) (a : Annot) : bool :=
  Qle_bool (x0 (a_rect a)) (inject_Z (Z.of_nat k)) &&
  Qle_bool (inject_Z (Z.of_nat (S k))) (x1 (a_rect a)).

Fixpoint blank (k : nat) (annots : list Annot) (s : string) : string :=
  match s with
  | EmptyString => EmptyString
  | String c s' =>
      String (if existsb (covered k) annots then " "%char else c) (blank (S k) annots s')
  end.

Definition rect_eqb (r r' : Rect) : bool :=
  Qeq_bool (x0 r) (x0 r') && Qeq_bool (y0 r) (y0 r') &&
  Qeq_bool (x1 r) (x1 r') && Qeq_bool (y1 r) (y1 r').

(** An annotation whose overlay text cannot be drawn: a non-empty text in
    an empty or infinite box. *)
Definition bad_textbox (a : Annot) : bool :=
  match a_text a with
  | PStr (String _ _) => is_empty (a_rect a) || is_infinite (a_rect a)
  | _ => false
  end.

Definition toy_apply (pg : TPage) (annots : list Annot) (pol : ImagePolicy)
    : TPage * option string :=
  (mkTPage (blank 0 annots (t_text pg))
     (match pol with
      | PDF_REDACT_IMAGE_DEFAULT => t_images pg
      | PDF_REDACT_IMAGE_REMOVE =>
          filter (fun r => negb (existsb (fun a => rect_eqb r (a_rect a)) annots)) (t_images pg)
      end),
   if existsb bad_textbox annots then Some "text box must be finite and not empty" else None).

#[export] Instance toy_engine : PdfEngine := {|
  Page := TPage;
  Image := Rect;
  Blocks := list string;
  get_text := t_text;
  get_blocks := fun pg => py_split (t_text pg);
  search_for := toy_search_for;
  get_images := t_images;
  get_image_bbox := fun _ r => r;
  apply_redactions := toy_apply |}.

#[export] Instance toy_re : PyRe := {| re_finditer := fun _ _ _ => [] |}.

Definition page_of (s : string) : TPage := mkTPage s [].

Definition BLACK : Color := (0, 0, 0)%Q.

(** The scenario of spec section 8: page 0 holds "CONFIDENTIAL employee data",
    page 1 is clean. *)
Definition scenario : list TPage :=
  [page_of "CONFIDENTIAL employee data"; page_of "nothing to see"].

Example scenario_redact :
  fst (redact_text_by_search ["CONFIDENTIAL"] false BLACK "" WHITE (open_doc scenario))
  = Ok (RSResult 1 1 [(0, 1)] ["CONFIDENTIAL"]).
Proof. vm_compute. reflexivity. Qed.

Example scenario_duplicate_pattern :
  fst (redact_text_by_search ["CONFIDENTIAL"; "CONFIDENTIAL"] false BLACK "" WHITE
         (open_doc scenario))
  = Ok (RSResult 2 1 [(0, 2)] ["CONFIDENTIAL"; "CONFIDENTIAL"]).
Proof. vm_compute. reflexivity. Qed.

Example extract_json_counts :
  fst (extract_text_from_pdf None "json" (open_doc scenario))
  = Ok (XJson 2 [(0%Z, "CONFIDENTIAL employee data", 3); (1%Z, "nothing to see", 3)]).
Proof. vm_compute. reflexivity. Qed.

(** A stream holds the text of a single page; saving writes the texts of
    the pages one after the other. *)
#[export] Instance toy_stream : PdfStream := {|
  open_stream := fun bs => match bs with
                           | [] => inl "Cannot open empty stream."
                           | _ => inr [page_of (string_of_list_byte bs)]
                           end;
  write_pdf := fun ps => list_byte_of_string
                           (String.concat "" (map (fun '(pg, _) => t_text pg) ps)) |}.

(** US Letter pages without rotation or links. *)
#[export] Instance toy_info : PdfInfoEngine := {|
  Metadata := list (string * string);
  Link := Rect;
  page_width := fun _ => inject_Z 612;
  page_height := fun _ => inject_Z 792;
  page_rotation := fun _ => 0%Z;
  page_get_links := fun _ => [] |}.

(** ["hello"], base64-encoded. *)
Definition hello_b64 : string := "aGVsbG8=".

End Toy.

(** * Properties *)

Section VerifyProps.
Context {E : PdfEngine}.

(** [if rects:] -- a non-empty list is true; [None] and [[]] are false. *)
Definition located (s : string) (pg : Page) : bool :=
  match search_for pg s with Some (_ :: _) => true | _ => false end.

Definition patterns_of (ss : option (list string)) : list string :=
  match ss with Some l => l | None => [] end.

Lemma scan_pages_found (s : string) (k : nat) (pgs : list Page) (found : bool) pf :
  fst (scan_pages s k pgs found pf) = found || existsb (located s) pgs.
Proof.
  revert k found pf; induction pgs as [|pg pgs IH]; intros k found pf; simpl.
  - now rewrite orb_false_r.
  - unfold located at 1. destruct (search_for pg s) as [[|r rs]|]; rewrite IH.
    + reflexivity.
    + now rewrite orb_true_r.
    + reflexivity.
Qed.

Lemma string_check_pass (red : list Page) (s : string) :
  sc_status (string_check red s) = "PASS"
  <-> forall pg, In pg red -> search_for pg s = None \/ search_for pg s = Some [].
Proof.
  unfold string_check; simpl. rewrite scan_pages_found; simpl.
  split.
  - intros H pg Hin. destruct (existsb (located s) red) eqn:Ex; [discriminate|].
    assert (Hl : located s pg = false).
    { destruct (located s pg) eqn:L; [|reflexivity].
      assert (existsb (located s) red = true) by (apply existsb_exists; eauto).
      congruence. }
    unfold located in Hl. destruct (search_for pg s) as [[|r rs]|]; auto; discriminate.
  - intros H. destruct (existsb (located s) red) eqn:Ex; [|reflexivity].
    apply existsb_exists in Ex as [pg [Hin Hl]].
    unfold located in Hl. destruct (H pg Hin) as [Hs|Hs]; rewrite Hs in Hl; discriminate.
Qed.

Lemma verdict_pass_iff (v : list StringCheck) :
  (if forallb (fun c => String.eqb (sc_status c) "PASS") v then "PASS" else "FAIL") = "PASS"
  <-> Forall (fun c => sc_status c = "PASS") v.
Proof.
  rewrite Forall_forall.
  destruct (forallb _ v) eqn:F.
  - rewrite forallb_forall in F. split; [|reflexivity].
    intros _ c Hc. apply String.eqb_eq, F, Hc.
  - split; [discriminate|]. intros H.
    assert (forallb (fun c => String.eqb (sc_status c) "PASS") v = true)
      by (apply forallb_forall; intros c Hc; apply String.eqb_eq, H, Hc).
    congruence.
Qed.

Lemma verify_string_checks (orig red : list Page) (ss : option (list string)) :
  v_string_checks (verify_redactions orig red ss) = map (string_check red) (patterns_of ss).
Proof. destruct ss as [[|s l]|]; reflexivity. Qed.

(** C1: the overall verdict of [verify_redactions] is PASS exactly when every
    string check is PASS, i.e. when no requested pattern is located on any
    page of the redacted document (the locator returns [None] or an empty
    list for it on every page); the original document (and with it the
    whole text comparison) has no influence on it; with no pattern list, or
    an empty one, the verdict is PASS. *)
Theorem verify_verdict_iff_patterns_absent (orig red : list Page) (ss : option (list string)) :
  (v_status (verify_redactions orig red ss) = "PASS" <->
     Forall (fun c => sc_status c = "PASS") (v_string_checks (verify_redactions orig red ss)))
  /\ (v_status (verify_redactions orig red ss) = "PASS" <->
     forall s, In s (patterns_of ss) -> forall pg, In pg red ->
       search_for pg s = None \/ search_for pg s = Some [])
  /\ (forall orig', v_status (verify_redactions orig' red ss)
                    = v_status (verify_redactions orig red ss))
  /\ v_status (verify_redactions orig red None) = "PASS"
  /\ v_status (verify_redactions orig red (Some [])) = "PASS".
Proof.
  assert (H1 : v_status (verify_redactions orig red ss) = "PASS" <->
     Forall (fun c => sc_status c = "PASS") (v_string_checks (verify_redactions orig red ss))).
  { unfold verify_redactions at 1. simpl. apply verdict_pass_iff. }
  split; [exact H1|]. split; [|split; [|split; reflexivity]].
  - rewrite H1, verify_string_checks, Forall_map, Forall_forall.
    split.
    + intros H s Hs. apply string_check_pass, H, Hs.
    + intros H s Hs. apply string_check_pass, H, Hs.
  - intros orig'. reflexivity.
Qed.

Lemma compare_pages_self (k : nat) (pgs : list Page) :
  List.length (compare_pages k pgs pgs) = List.length pgs /\
  Forall (fun t => tc_text_modified t = false /\ tc_words_removed t = 0%Z)
         (compare_pages k pgs pgs).
Proof.
  revert k; induction pgs as [|pg pgs IH]; intros k; simpl.
  - split; [reflexivity | constructor].
  - destruct (IH (S k)) as [Hl Hf]. split; [now rewrite Hl|].
    constructor; [|exact Hf]. simpl. rewrite String.eqb_refl. split; [reflexivity | lia].
Qed.

(** C9: a document verified against itself with no patterns: the page counts
    match, the text comparison has one entry per page, each with
    [text_modified = false] and [words_removed = 0], and the verdict is PASS. *)
Theorem verify_self_unchanged (pgs : list Page) :
  v_pages_match (verify_redactions pgs pgs None) = true
  /\ List.length (v_text_comparison (verify_redactions pgs pgs None)) = List.length pgs
  /\ Forall (fun t => tc_text_modified t = false /\ tc_words_removed t = 0%Z)
            (v_text_comparison (verify_redactions pgs pgs None))
  /\ v_status (verify_redactions pgs pgs None) = "PASS".
Proof.
  unfold verify_redactions; simpl.
  destruct (compare_pages_self 0 pgs) as [Hl Hf].
  rewrite Nat.eqb_refl. repeat split; assumption.
Qed.

End VerifyProps.

Section SearchProps.
Context {E : PdfEngine} {RE : PyRe}.

Lemma search_pages_case_flag_unused (s : string) (ps : list Z) (ms : list Match) (st : St) :
  search_pages s true false ps ms st = search_pages s false false ps ms st.
Proof.
  revert ms st; induction ps as [|p ps IH]; intros ms st; [reflexivity|].
  cbn [search_pages negb]. unfold bind.
  destruct (doc_getitem p st) as [[i|e] st1]; [|reflexivity].
  destruct (page_search_for i s st1) as [[rs|e] st2]; [|reflexivity].
  destruct (iter_rects rs st2) as [[l|e] st3]; [|reflexivity].
  apply IH.
Qed.

(** C10: with [use_regex = false], [search_text_in_pdf] gives the same result,
    and leaves the document in the same state, whatever [case_sensitive] is:
    the flag only feeds a [flags] value that is never passed to the engine's
    locator. *)
Theorem search_literal_ignores_case_flag (s : string) (page_number : option Z) (st : St) :
  search_text_in_pdf s true false page_number st
  = search_text_in_pdf s false false page_number st.
Proof.
  unfold search_text_in_pdf, try_except, search_text_body, bind, ret.
  destruct page_number as [pn|].
  - cbv beta iota. rewrite search_pages_case_flag_unused. reflexivity.
  - destruct (doc_len st) as [[n|e] st1]; cbv beta iota; [|reflexivity].
    rewrite search_pages_case_flag_unused. reflexivity.
Qed.

End SearchProps.

Section ExtractProps.
Context {E : PdfEngine}.

(** C7: for an explicit page number outside [0, len(doc)), the tool returns
    an error and reads no page; but the message is not the intended
    "Invalid page number. PDF has N pages": [doc.close()] runs before the
    f-string evaluates [len(doc)], which raises on the closed document, and
    the outer handler returns [{"error": "document closed"}]. *)
Theorem extract_text_invalid_page_reports_closed_document
    (pgs : list Page) (z : Z) (fmt : string)
    (Hout : (z < 0)%Z \/ (Z.of_nat (List.length pgs) <= z)%Z) :
  extract_text_from_pdf (Some z) fmt (open_doc pgs)
  = (Ok (XError "document closed"), mkSt (st_pages (open_doc pgs)) true []).
Proof.
  unfold extract_text_from_pdf, extract_text_body, try_except, bind, ret, doc_len, doc_close.
  cbn [st_closed st_pages open_doc].
  destruct (z <? 0)%Z eqn:Hz.
  - reflexivity.
  - apply Z.ltb_ge in Hz. destruct Hout as [Hout|Hout]; [lia|].
    assert (Hle : (Z.of_nat (List.length pgs) <=? z)%Z = true) by (apply Z.leb_le; exact Hout).
    cbn. rewrite length_map, Hle. reflexivity.
Qed.

End ExtractProps.

Definition NO_FILL : Color := (0, 0, 0)%Q.

Section CoordsBug.
Context {E : PdfEngine}.

(** C4: a directive whose bbox is a number (no components at all, so not
    four) is not recorded as a per-item error: [len(bbox)] raises a
    [TypeError], the outer handler turns the whole call into one error, and
    the valid directive after it is never staged. *)
Theorem redact_by_coordinates_scalar_bbox_aborts_batch (pg : Page) :
  redact_by_coordinates
    [[("page", PInt 0); ("bbox", PInt 5)];
     [("page", PInt 0); ("bbox", PList [PInt 0; PInt 0; PInt 10; PInt 10])]]
    NO_FILL "" (open_doc [pg])
  = (Ok (RCError "object of type 'int' has no len()"), open_doc [pg]).
Proof. reflexivity. Qed.

End CoordsBug.

Module SessionStoreProps.
Import SessionStore.

Section Props.
Context {E : PdfEngine}.
Variable Source : Type.
Variable engine_open : Source -> option (list Page).
Variable derive_id : Source -> string.

Lemma lookup_none_iff (id : string) (s : Store) : lookup id s = None <-> ~ In id (keys s).
Proof.
  induction s as [|[k d] s IH]; simpl.
  - split; auto.
  - destruct (String.eqb k id) eqn:Hk.
    + apply String.eqb_eq in Hk. subst. split; [discriminate | intros H; exfalso; auto].
    + apply String.eqb_neq in Hk. rewrite IH. split.
      * intros H [H'|H']; [congruence | auto].
      * auto.
Qed.

Lemma lookup_assign (id : string) (d : St) (s : Store) : lookup id (assign id d s) = Some d.
Proof.
  induction s as [|[k d'] s IH]; simpl.
  - now rewrite String.eqb_refl.
  - destruct (String.eqb k id) eqn:Hk; simpl; rewrite Hk; [reflexivity | exact IH].
Qed.

Lemma keys_assign_in (id : string) (d : St) (s : Store) (x : string) :
  In x (keys (assign id d s)) <-> x = id \/ In x (keys s).
Proof.
  induction s as [|[k d'] s IH]; simpl.
  - split; intros H; intuition congruence.
  - destruct (String.eqb k id) eqn:Hk; simpl.
    + apply String.eqb_eq in Hk. subst. split; intros H; intuition congruence.
    + rewrite IH. split; intros H; intuition congruence.
Qed.

Lemma nodup_assign (id : string) (d : St) (s : Store) :
  NoDup (keys s) -> NoDup (keys (assign id d s)).
Proof.
  induction s as [|[k d'] s IH]; simpl; intros Hnd.
  - repeat constructor. simpl; tauto.
  - inversion Hnd as [|? ? Hnin Hnd']; subst.
    destruct (String.eqb k id) eqn:Hk; simpl.
    + constructor; assumption.
    + apply String.eqb_neq in Hk. constructor; [|auto].
      rewrite keys_assign_in. intros [H|H]; [congruence | auto].
Qed.

Lemma remove_not_in (id : string) (s : Store) :
  NoDup (keys s) -> ~ In id (keys (remove id s)).
Proof.
  induction s as [|[k d] s IH]; simpl; intros Hnd.
  - auto.
  - inversion Hnd as [|? ? Hnin Hnd']; subst.
    destruct (String.eqb k id) eqn:Hk.
    + apply String.eqb_eq in Hk. subst. exact Hnin.
    + apply String.eqb_neq in Hk. simpl. intros [H|H]; [congruence | exact (IH Hnd' H)].
Qed.

(** C6 (spec-modelled store): in a well-formed store (a dict: no key twice),
    a successful [load] under an identifier followed by [close] of it leaves
    a store without the identifier, where [get], any session tool and a
    second [close] addressed to it fail with [NotFoundError] carrying the
    live identifiers; and [close] of any absent identifier fails the same
    way. *)
Theorem load_close_then_not_found
    (src : Source) (id : string) (s0 s1 : Store) (info : SessionInfo)
    (Hnd : NoDup (keys s0))
    (Hload : load engine_open derive_id src (Some id) s0 = inr (info, s1)) :
  (exists s2, close id s1 = inr s2
     /\ ~ In id (keys s2)
     /\ get id s2 = inl (NotFoundError (keys s2))
     /\ (forall A (tool : M A), with_session id tool s2 = inl (NotFoundError (keys s2)))
     /\ close id s2 = inl (NotFoundError (keys s2)))
  /\ (forall s id', ~ In id' (keys s) -> close id' s = inl (NotFoundError (keys s))).
Proof.
  assert (Habsent : forall s id', ~ In id' (keys s) -> lookup id' s = None)
    by (intros; apply lookup_none_iff; assumption).
  split.
  - unfold load in Hload.
    destruct (engine_open src) as [pgs|]; [|discriminate].
    injection Hload as <- <-.
    exists (remove id (assign id (open_doc pgs) s0)).
    assert (Hgone : ~ In id (keys (remove id (assign id (open_doc pgs) s0))))
      by (apply remove_not_in, nodup_assign, Hnd).
    unfold close at 1. rewrite lookup_assign.
    unfold with_session, get, close. rewrite (Habsent _ _ Hgone).
    repeat split; auto.
  - intros s id' H. unfold close. rewrite (Habsent _ _ H). reflexivity.
Qed.

End Props.
End SessionStoreProps.

(** ** Running the engine primitives on a known state *)

Section StateLemmas.
Context {E : PdfEngine}.
Local Open Scope list_scope.






Lemma page_at_ok (s : St) (i : nat) (p : PageSt) :
  nth_error (st_pages s) i = Some p -> page_at i s = (Ok p, s).
Proof. intros H. unfold page_at. now rewrite H. Qed.

Lemma doc_getitem_ok (s : St) (k : nat) :
  st_closed s = false -> k < List.length (st_pages s) ->
  doc_getitem (Z.of_nat k) s = (Ok k, s).
Proof.
  intros Hc Hk. unfold doc_getitem, bind, doc_len, ret. rewrite Hc.
  assert (H1 : (Z.of_nat k <? Z.of_nat (List.length (st_pages s)))%Z = true)
    by (apply Z.ltb_lt; lia).
  assert (H2 : (0 <=? Z.of_nat k)%Z = true) by (apply Z.leb_le; lia).
  rewrite H1, H2, Nat2Z.id. reflexivity.
Qed.





End StateLemmas.

Section RedactSearchProps.
Context {E : PdfEngine}.
Local Open Scope list_scope.


















End RedactSearchProps.

Section RedactSearchThm.
Context {E : PdfEngine}.
Local Open Scope list_scope.


End RedactSearchThm.


Section CoordsProps.
Context {E : PdfEngine}.
Local Open Scope list_scope.

(** Computations that leave the document untouched. *)
Definition pure_op {A} (m : M A) : Prop := forall s, snd (m s) = s.

Lemma pure_ret {A} (a : A) : pure_op (ret a).
Proof. intros s; reflexivity. Qed.

Lemma pure_raise {A} (e : string) : pure_op (A := A) (raise e).
Proof. intros s; reflexivity. Qed.

Lemma pure_bind {A B} (m : M A) (k : A -> M B) :
  pure_op m -> (forall a, pure_op (k a)) -> pure_op (bind m k).
Proof.
  intros Hm Hk s. unfold bind. specialize (Hm s).
  destruct (m s) as [[a|e] s']; simpl in *; subst; [apply Hk | reflexivity].
Qed.


Lemma pure_doc_len : pure_op doc_len.
Proof. intros s. unfold doc_len. destruct (st_closed s); reflexivity. Qed.

Lemma pure_doc_getitem (z : Z) : pure_op (doc_getitem z).
Proof.
  unfold doc_getitem. apply pure_bind; [apply pure_doc_len|]. intros n.
  destruct (z <? _)%Z; [destruct (0 <=? z)%Z; [|destruct (Nat.eqb n 0)]|];
    auto using pure_ret, pure_raise.
Qed.

Lemma pure_py_lt_int (v : PyVal) (z : Z) : pure_op (py_lt_int v z).
Proof. unfold py_lt_int. destruct (py_num v); auto using pure_ret, pure_raise. Qed.

Lemma pure_py_ge_int (v : PyVal) (z : Z) : pure_op (py_ge_int v z).
Proof. unfold py_ge_int. destruct (py_num v); auto using pure_ret, pure_raise. Qed.

Lemma pure_py_len (v : PyVal) : pure_op (py_len v).
Proof. destruct v; simpl; auto using pure_ret, pure_raise. Qed.

Lemma pure_py_rect (v : PyVal) : pure_op (py_rect v).
Proof.
  intros s. unfold py_rect.
  repeat match goal with
         | |- context [match ?x with _ => _ end] => destruct x
         end; reflexivity.
Qed.

Lemma pure_doc_getitem_any (v : PyVal) : pure_op (doc_getitem_any v).
Proof. destruct v; simpl; auto using pure_doc_getitem, pure_raise. Qed.

Create HintDb pure.
#[local] Hint Resolve pure_ret pure_raise pure_bind pure_doc_len pure_doc_getitem pure_py_lt_int
  pure_py_ge_int pure_py_len pure_py_rect pure_doc_getitem_any : pure.





End CoordsProps.

Section CoordsThm.
Context {E : PdfEngine}.
Local Open Scope list_scope.






End CoordsThm.

Section RedactImagesProps.
Context {E : PdfEngine}.
Local Open Scope list_scope.








End RedactImagesProps.

Section RedactImagesThm.
Context {E : PdfEngine}.
Local Open Scope list_scope.


End RedactImagesThm.

(** ** base64: the round trip and the decoder's treatment of its input *)

Section Base64Props.

Lemma byte_to_Z_bounds (b : Byte.byte) : (0 <= byte_to_Z b < 256)%Z.
Proof. unfold byte_to_Z. pose proof (Byte.to_N_bounded b). lia. Qed.

Lemma byte_of_Z_to_Z (b : Byte.byte) : byte_of_Z (byte_to_Z b) = b.
Proof. destruct b; reflexivity. Qed.

Lemma byte_of_Z_eq (z : Z) (b : Byte.byte) :
  Z.land z 255 = byte_to_Z b -> byte_of_Z z = b.
Proof.
  intros H. rewrite <- (byte_of_Z_to_Z b). unfold byte_of_Z at 1 2. rewrite <- H.
  rewrite <- Z.land_assoc. reflexivity.
Qed.

(** Checking a boolean property on every integer of a small range. *)
Definition all_below (n : nat) (P : Z -> bool) : bool :=
  forallb P (map Z.of_nat (seq 0 n)).

Lemma all_below_spec (n : nat) (P : Z -> bool) :
  all_below n P = true -> forall z, (0 <= z < Z.of_nat n)%Z -> P z = true.
Proof.
  unfold all_below. intros H z Hz. rewrite forallb_forall in H. apply H.
  apply in_map_iff. exists (Z.to_nat z). split; [lia|]. apply in_seq. lia.
Qed.

Lemma all_below2_spec (n : nat) (P : Z -> Z -> bool) :
  all_below n (fun a => all_below n (P a)) = true ->
  forall a b, (0 <= a < Z.of_nat n)%Z -> (0 <= b < Z.of_nat n)%Z -> P a b = true.
Proof.
  intros H a b Ha Hb. apply (all_below_spec n (P a)); [|exact Hb].
  exact (all_below_spec n _ H a Ha).
Qed.

(** A conjunction of checks, as propositions. *)
Ltac split_checks H := repeat rewrite andb_true_iff in H; repeat rewrite Z.eqb_eq in H.

Definition sextet (v : Z) : bool := (0 <=? v)%Z && (v <? 64)%Z.

(** Every sextet is encoded by a character the decoder maps back to it. *)
Lemma b64_val_char (v : Z) : (0 <= v < 64)%Z -> b64_val (b64_char v) = Some v.
Proof.
  intros Hv.
  assert (H : all_below 64 (fun v => match b64_val (b64_char v) with
                                     | Some w => (w =? v)%Z | None => false end) = true)
    by (vm_compute; reflexivity).
  pose proof (all_below_spec _ _ H v Hv) as Hc. cbv beta in Hc.
  destruct (b64_val (b64_char v)) as [w|]; [|discriminate].
  apply Z.eqb_eq in Hc. now subst.
Qed.

Lemma b64_char_not_pad (v : Z) : (0 <= v < 64)%Z -> Ascii.eqb (b64_char v) BASE64_PAD = false.
Proof.
  intros Hv. destruct (Ascii.eqb (b64_char v) BASE64_PAD) eqn:E; [|reflexivity].
  apply Ascii.eqb_eq in E. pose proof (b64_val_char v Hv) as H. rewrite E in H.
  discriminate.
Qed.

Lemma b64_char_ascii (v : Z) : Nat.ltb (nat_of_ascii (b64_char v)) 128 = true.
Proof.
  unfold b64_char. generalize (Z.to_nat v) as n. intros n.
  do 64 (destruct n as [|n]; [reflexivity|]). reflexivity.
Qed.

(** The sextets of one group of three bytes, and what the decoder rebuilds
    from them. *)
Lemma group_bits (a b c : Z) :
  (0 <= a < 256)%Z -> (0 <= b < 256)%Z -> (0 <= c < 256)%Z ->
  let e1 := Z.shiftr a 2 in
  let e2 := Z.lor (Z.shiftl (Z.land a 3) 4) (Z.shiftr b 4) in
  let e3 := Z.lor (Z.shiftl (Z.land b 15) 2) (Z.shiftr c 6) in
  let e4 := Z.land c 63 in
  sextet e1 = true /\ sextet e2 = true /\ sextet e3 = true /\ sextet e4 = true
  /\ Z.land (Z.lor (Z.shiftl e1 2) (Z.shiftr e2 4)) 255 = a
  /\ Z.land (Z.lor (Z.shiftl (Z.land e2 15) 4) (Z.shiftr e3 2)) 255 = b
  /\ Z.land (Z.lor (Z.shiftl (Z.land e3 3) 6) e4) 255 = c.
Proof.
  intros Ha Hb Hc e1 e2 e3 e4.
  assert (H1 : all_below 256 (fun a => sextet (Z.shiftr a 2)
                 && (Z.land (Z.lor (Z.shiftl (Z.land (Z.shiftr (Z.shiftl (Z.land a 3) 4) 0) 15) 4) 0) 255 =? 0)%Z)
               = true) by (vm_compute; reflexivity).
  assert (H2 : all_below 256 (fun a => all_below 256 (fun b =>
                 sextet (Z.lor (Z.shiftl (Z.land a 3) 4) (Z.shiftr b 4))
                 && (Z.land (Z.lor (Z.shiftl (Z.shiftr a 2) 2)
                        (Z.shiftr (Z.lor (Z.shiftl (Z.land a 3) 4) (Z.shiftr b 4)) 4)) 255 =? a)%Z
                 && (Z.land (Z.lor (Z.shiftl (Z.land a 3) 4) (Z.shiftr b 4)) 15 =? Z.shiftr b 4)%Z
                 && sextet (Z.lor (Z.shiftl (Z.land a 15) 2) (Z.shiftr b 6))
                 && (Z.shiftr (Z.lor (Z.shiftl (Z.land a 15) 2) (Z.shiftr b 6)) 2 =? Z.land a 15)%Z
                 && (Z.land (Z.lor (Z.shiftl (Z.land a 15) 2) (Z.shiftr b 6)) 3 =? Z.shiftr b 6)%Z))
               = true) by (vm_compute; reflexivity).
  assert (H3 : all_below 256 (fun b =>
                 sextet (Z.shiftr b 2) && sextet (Z.land b 63)
                 && (Z.land (Z.lor (Z.shiftl (Z.shiftr b 4) 4) (Z.land b 15)) 255 =? b)%Z
                 && (Z.land (Z.lor (Z.shiftl (Z.shiftr b 6) 6) (Z.land b 63)) 255 =? b)%Z)
               = true) by (vm_compute; reflexivity).
  clear H1.
  pose proof (all_below2_spec _ _ H2 a b Ha Hb) as Hab.
  pose proof (all_below2_spec _ _ H2 b c Hb Hc) as Hbc.
  pose proof (all_below_spec _ _ H3 a Ha) as Ha3.
  pose proof (all_below_spec _ _ H3 b Hb) as Hb3.
  pose proof (all_below_spec _ _ H3 c Hc) as Hc3.
  cbv beta in Hab, Hbc, Ha3, Hb3, Hc3.
  split_checks Hab. split_checks Hbc. split_checks Ha3. split_checks Hb3. split_checks Hc3.
  destruct Hab as [[[[[Hs2 Hd1] Hl2] _] _] _].
  destruct Hbc as [[[[[_ _] _] Hs3] Hr3] Hl3].
  destruct Ha3 as [[[Hs1 _] _] _].
  destruct Hc3 as [[[_ Hs4] _] Hd3].
  destruct Hb3 as [[[_ _] Hd2] _].
  subst e1 e2 e3 e4.
  repeat split; try assumption.
  - rewrite Hl2, Hr3. exact Hd2.
  - rewrite Hl3. exact Hd3.
Qed.

Lemma pair_bits (a b : Z) :
  (0 <= a < 256)%Z -> (0 <= b < 256)%Z ->
  let e1 := Z.shiftr a 2 in
  let e2 := Z.lor (Z.shiftl (Z.land a 3) 4) (Z.shiftr b 4) in
  let e3 := Z.shiftl (Z.land b 15) 2 in
  sextet e1 = true /\ sextet e2 = true /\ sextet e3 = true
  /\ Z.land (Z.lor (Z.shiftl e1 2) (Z.shiftr e2 4)) 255 = a
  /\ Z.land (Z.lor (Z.shiftl (Z.land e2 15) 4) (Z.shiftr e3 2)) 255 = b.
Proof.
  intros Ha Hb e1 e2 e3.
  assert (H : all_below 256 (fun a => all_below 256 (fun b =>
                 sextet (Z.shiftr a 2)
                 && sextet (Z.lor (Z.shiftl (Z.land a 3) 4) (Z.shiftr b 4))
                 && sextet (Z.shiftl (Z.land b 15) 2)
                 && (Z.land (Z.lor (Z.shiftl (Z.shiftr a 2) 2)
                        (Z.shiftr (Z.lor (Z.shiftl (Z.land a 3) 4) (Z.shiftr b 4)) 4)) 255 =? a)%Z
                 && (Z.land (Z.lor (Z.shiftl (Z.land (Z.lor (Z.shiftl (Z.land a 3) 4)
                        (Z.shiftr b 4)) 15) 4) (Z.shiftr (Z.shiftl (Z.land b 15) 2) 2)) 255 =? b)%Z))
              = true) by (vm_compute; reflexivity).
  pose proof (all_below2_spec _ _ H a b Ha Hb) as Hab. cbv beta in Hab.
  split_checks Hab.
  destruct Hab as [[[[H1 H2] H3] H4] H5]. subst e1 e2 e3. auto.
Qed.

Lemma single_bits (a : Z) :
  (0 <= a < 256)%Z ->
  let e1 := Z.shiftr a 2 in
  let e2 := Z.shiftl (Z.land a 3) 4 in
  sextet e1 = true /\ sextet e2 = true
  /\ Z.land (Z.lor (Z.shiftl e1 2) (Z.shiftr e2 4)) 255 = a.
Proof.
  intros Ha e1 e2.
  assert (H : all_below 256 (fun a =>
                 sextet (Z.shiftr a 2) && sextet (Z.shiftl (Z.land a 3) 4)
                 && (Z.land (Z.lor (Z.shiftl (Z.shiftr a 2) 2)
                        (Z.shiftr (Z.shiftl (Z.land a 3) 4) 4)) 255 =? a)%Z) = true)
    by (vm_compute; reflexivity).
  pose proof (all_below_spec _ _ H a Ha) as Ha'. cbv beta in Ha'.
  split_checks Ha'.
  destruct Ha' as [[H1 H2] H3]. subst e1 e2. auto.
Qed.

Lemma sextet_range (v : Z) : sextet v = true -> (0 <= v < 64)%Z.
Proof. unfold sextet. rewrite andb_true_iff, Z.leb_le, Z.ltb_lt. lia. Qed.

(** Decoding the character of a sextet, in any state. *)
Lemma a2b_loop_char (v : Z) (s : string) (qp pads : nat) (lc : Z) (out : list Byte.byte) :
  sextet v = true ->
  a2b_loop (String (b64_char v) s) qp pads lc out
  = match qp with
    | 0 => a2b_loop s 1 0 v out
    | 1 => a2b_loop s 2 0 (Z.land v 15)
             (out ++ [byte_of_Z (Z.lor (Z.shiftl lc 2) (Z.shiftr v 4))])%list
    | 2 => a2b_loop s 3 0 (Z.land v 3)
             (out ++ [byte_of_Z (Z.lor (Z.shiftl lc 4) (Z.shiftr v 2))])%list
    | _ => a2b_loop s 0 0 0 (out ++ [byte_of_Z (Z.lor (Z.shiftl lc 6) v)])%list
    end.
Proof.
  intros Hv. apply sextet_range in Hv. cbn [a2b_loop].
  rewrite (b64_char_not_pad v Hv), (b64_val_char v Hv). reflexivity.
Qed.

Lemma b64encode_decodes (n : nat) :
  forall (bs : list Byte.byte) (out : list Byte.byte) (pads : nat) (lc : Z),
  List.length bs <= n ->
  a2b_loop (b64encode bs) 0 pads lc out = inr (out ++ bs)%list.
Proof.
  induction n as [|n IH]; intros bs out pads lc Hlen.
  - destruct bs; [|simpl in Hlen; lia]. simpl. now rewrite app_nil_r.
  - destruct bs as [|a [|b [|c rest]]].
    + simpl. now rewrite app_nil_r.
    + pose proof (single_bits _ (byte_to_Z_bounds a)) as [S1 [S2 D1]].
      cbn [b64encode]. rewrite a2b_loop_char by exact S1.
      rewrite a2b_loop_char by exact S2.
      rewrite (byte_of_Z_eq _ a D1). reflexivity.
    + pose proof (pair_bits _ _ (byte_to_Z_bounds a) (byte_to_Z_bounds b))
        as [S1 [S2 [S3 [D1 D2]]]].
      cbn [b64encode]. rewrite a2b_loop_char by exact S1.
      rewrite a2b_loop_char by exact S2. rewrite a2b_loop_char by exact S3.
      rewrite (byte_of_Z_eq _ a D1), (byte_of_Z_eq _ b D2).
      cbn. now rewrite <- app_assoc.
    + pose proof (group_bits _ _ _ (byte_to_Z_bounds a) (byte_to_Z_bounds b)
                    (byte_to_Z_bounds c)) as [S1 [S2 [S3 [S4 [D1 [D2 D3]]]]]].
      cbn [b64encode]. rewrite a2b_loop_char by exact S1.
      rewrite a2b_loop_char by exact S2. rewrite a2b_loop_char by exact S3.
      rewrite a2b_loop_char by exact S4.
      rewrite (byte_of_Z_eq _ a D1), (byte_of_Z_eq _ b D2), (byte_of_Z_eq _ c D3).
      rewrite IH by (simpl in Hlen; lia).
      rewrite <- !app_assoc. reflexivity.
Qed.

Lemma b64encode_ascii (bs : list Byte.byte) : is_ascii_str (b64encode bs) = true.
Proof.
  remember (List.length bs) as n eqn:Hn. assert (Hle : List.length bs <= n) by lia.
  clear Hn. revert bs Hle. induction n as [n IH] using lt_wf_ind. intros bs Hle.
  destruct bs as [|a [|b [|c rest]]]; cbn [b64encode is_ascii_str];
    rewrite ?b64_char_ascii; try reflexivity.
  apply (IH (List.length rest)); [simpl in Hle; lia | lia].
Qed.

(** The round trip of the base64 tools: the [redacted_pdf] string they
    return decodes back to exactly the bytes the document was saved to. *)
Theorem b64decode_b64encode (bs : list Byte.byte) : b64decode (b64encode bs) = inr bs.
Proof.
  unfold b64decode. rewrite b64encode_ascii.
  exact (b64encode_decodes (List.length bs) bs [] 0 0 (le_n _)).
Qed.

End Base64Props.

Section Base64Input.

Definition is_b64_data (c : ascii) : bool :=
  match b64_val c with Some _ => true | None => false end.

(** The characters the decoder looks at: the alphabet and the pad. *)
Fixpoint b64_strip (s : string) : string :=
  match s with
  | EmptyString => EmptyString
  | String c s' =>
      if Ascii.eqb c BASE64_PAD || is_b64_data c then String c (b64_strip s')
      else b64_strip s'
  end.

Fixpoint has_pad (s : string) : bool :=
  match s with
  | EmptyString => false
  | String c s' => Ascii.eqb c BASE64_PAD || has_pad s'
  end.

Fixpoint data_count (s : string) : nat :=
  match s with
  | EmptyString => 0
  | String c s' => (if is_b64_data c then 1 else 0) + data_count s'
  end.

Lemma a2b_loop_strip (s : string) :
  forall qp pads lc out, a2b_loop (b64_strip s) qp pads lc out = a2b_loop s qp pads lc out.
Proof.
  induction s as [|c s IH]; intros qp pads lc out; [reflexivity|].
  cbn [b64_strip]. unfold is_b64_data.
  destruct (Ascii.eqb c BASE64_PAD) eqn:Hp; cbn [orb].
  - cbn [a2b_loop]. rewrite Hp.
    destruct (Nat.leb 2 qp); [destruct (Nat.leb 4 _)|]; auto.
  - destruct (b64_val c) as [v|] eqn:Hv.
    + cbn [a2b_loop]. rewrite Hp, Hv. destruct qp as [|[|[|qp]]]; apply IH.
    + cbn [a2b_loop]. rewrite Hp, Hv. apply IH.
Qed.

Lemma b64_val_ascii (c : ascii) (v : Z) : b64_val c = Some v -> Nat.ltb (nat_of_ascii c) 128 = true.
Proof.
  unfold b64_val. intros H. apply Nat.ltb_lt.
  repeat match type of H with
  | context [if ?b then _ else _] => destruct b eqn:?; [|]
  end; try discriminate;
  repeat match goal with
  | H : (_ && _)%bool = true |- _ => apply andb_true_iff in H as [? ?]
  | H : Nat.leb _ _ = true |- _ => apply Nat.leb_le in H
  | H : Nat.eqb _ _ = true |- _ => apply Nat.eqb_eq in H
  end; lia.
Qed.

Lemma b64_strip_ascii (s : string) : is_ascii_str (b64_strip s) = true.
Proof.
  induction s as [|c s IH]; [reflexivity|]. cbn [b64_strip].
  destruct (Ascii.eqb c BASE64_PAD) eqn:Hp; cbn [orb].
  - apply Ascii.eqb_eq in Hp. subst c. cbn [is_ascii_str]. rewrite IH. reflexivity.
  - unfold is_b64_data. destruct (b64_val c) as [v|] eqn:Hv; [|exact IH].
    cbn [is_ascii_str]. rewrite (b64_val_ascii c v Hv), IH. reflexivity.
Qed.

(** What happens to a string without pad characters, in any state of the
    loop: [q] complete quads and [r] characters of the current one have been
    read, and [3q + (r-1)] bytes written. *)
Lemma a2b_loop_nopad (s : string) :
  has_pad s = false ->
  forall q r pads lc out, r < 4 -> List.length out = 3 * q + Nat.pred r ->
  exists q' r' out', r' < 4 /\ 4 * q' + r' = 4 * q + r + data_count s
    /\ List.length out' = 3 * q' + Nat.pred r'
    /\ a2b_loop s r pads lc out = a2b_finish r' out'.
Proof.
  induction s as [|c s IH]; intros Hnp q r pads lc out Hr Hlen.
  - exists q, r, out. cbn [data_count]. repeat split; auto; lia.
  - cbn [has_pad] in Hnp. apply orb_false_iff in Hnp as [Hp Hnp].
    cbn [a2b_loop data_count]. rewrite Hp. unfold is_b64_data.
    destruct (b64_val c) as [v|].
    + destruct r as [|[|[|[|r]]]]; [| | | | lia].
      * destruct (IH Hnp q 1 0 v out ltac:(lia) ltac:(simpl in *; lia))
          as [q' [r' [out' [H1 [H2 [H3 H4]]]]]].
        exists q', r', out'. repeat split; auto; lia.
      * destruct (IH Hnp q 2 0 (Z.land v 15) (out ++ [byte_of_Z (Z.lor (Z.shiftl lc 2) (Z.shiftr v 4))])%list
                    ltac:(lia) ltac:(rewrite length_app; simpl in *; lia))
          as [q' [r' [out' [H1 [H2 [H3 H4]]]]]].
        exists q', r', out'. repeat split; auto; lia.
      * destruct (IH Hnp q 3 0 (Z.land v 3) (out ++ [byte_of_Z (Z.lor (Z.shiftl lc 4) (Z.shiftr v 2))])%list
                    ltac:(lia) ltac:(rewrite length_app; simpl in *; lia))
          as [q' [r' [out' [H1 [H2 [H3 H4]]]]]].
        exists q', r', out'. repeat split; auto; lia.
      * destruct (IH Hnp (S q) 0 0 0%Z (out ++ [byte_of_Z (Z.lor (Z.shiftl lc 6) v)])%list
                    ltac:(lia) ltac:(rewrite length_app; simpl in *; lia))
          as [q' [r' [out' [H1 [H2 [H3 H4]]]]]].
        exists q', r', out'. repeat split; auto; lia.
    + destruct (IH Hnp q r pads lc out Hr Hlen) as [q' [r' [out' [H1 [H2 [H3 H4]]]]]].
      exists q', r', out'. repeat split; auto; lia.
Qed.

End Base64Input.

Section Base64Thms.

(** [b64decode] skips every character outside the base64 alphabet and the
    pad (line breaks, spaces, or the [-] and [_] of the URL-safe alphabet):
    on an ASCII string it decodes exactly what the string with those
    characters removed decodes to. *)
Theorem b64decode_skips_non_alphabet (s : string) :
  is_ascii_str s = true -> b64decode s = b64decode (b64_strip s).
Proof.
  intros H. unfold b64decode. rewrite H, b64_strip_ascii, a2b_loop_strip. reflexivity.
Qed.

(** An ASCII string without pad characters is decoded according to its
    number [k] of alphabet characters: when [k] is a multiple of 4 it gives
    [3k/4] bytes; when [k] is one more than a multiple of 4 it fails with a
    message naming [k]; otherwise it fails with "Incorrect padding". *)
Theorem b64decode_unpadded (s : string) :
  is_ascii_str s = true -> has_pad s = false ->
  let k := data_count s in
  (k mod 4 = 0 -> exists bs, b64decode s = inr bs /\ List.length bs = k / 4 * 3)
  /\ (k mod 4 = 1 ->
      b64decode s = inl ("Invalid base64-encoded string: number of data characters ("
                         ++ nat_to_string k ++ ") cannot be 1 more than a multiple of 4"))
  /\ (2 <= k mod 4 -> b64decode s = inl "Incorrect padding").
Proof.
  intros Ha Hp k. unfold b64decode. rewrite Ha.
  destruct (a2b_loop_nopad s Hp 0 0 0 0%Z [] ltac:(lia) eq_refl)
    as [q [r [out [Hr [Hk [Hlen Hrun]]]]]].
  rewrite Hrun. fold k in Hk. cbn in Hk.
  assert (Hmod : k mod 4 = r).
  { symmetry. apply (Nat.mod_unique k 4 q r); lia. }
  assert (Hdiv : k / 4 = q).
  { symmetry. apply (Nat.div_unique k 4 q r); lia. }
  rewrite Hmod, Hdiv. clear Hmod Hdiv.
  split; [|split].
  - intros H0. subst r. exists out. split; [reflexivity|]. cbn in Hlen. lia.
  - intros H1. subst r. cbn [a2b_finish]. rewrite Hlen.
    assert (Hq : (3 * q + Nat.pred 1) / 3 = q).
    { cbn [Nat.pred]. rewrite Nat.add_0_r, Nat.mul_comm. apply Nat.div_mul. lia. }
    rewrite Hq. replace (q * 4 + 1) with k by lia. reflexivity.
  - intros H2. destruct r as [|[|r]]; [lia|lia|]. reflexivity.
Qed.

End Base64Thms.

Section PathProps.

Definition no_sep (x : string) : bool :=
  negb (existsb (fun c => Ascii.eqb c SEP) (list_ascii_of_string x)).

Definition clean_part (x : string) : bool :=
  no_sep x && negb (String.eqb x "") && negb (String.eqb x ".").

Lemma str_split_app (x y : string) :
  str_split SEP (x ++ String SEP y) = (str_split SEP x ++ str_split SEP y)%list.
Proof.
  induction x as [|c x IH]; cbn [append str_split].
  - rewrite Ascii.eqb_refl. reflexivity.
  - rewrite IH. destruct (Ascii.eqb c SEP); [reflexivity|].
    destruct (str_split SEP x) as [|z zs] eqn:Hx.
    + destruct x; cbn in Hx; [discriminate|]. destruct (Ascii.eqb a SEP);
        [discriminate|destruct (str_split SEP x); discriminate].
    + reflexivity.
Qed.

Lemma str_split_no_sep (x : string) : no_sep x = true -> str_split SEP x = [x].
Proof.
  unfold no_sep. induction x as [|c x IH]; intros H; [reflexivity|].
  cbn in H. apply negb_true_iff, orb_false_iff in H as [Hc Hx].
  cbn [str_split]. rewrite Hc. rewrite IH by (apply negb_true_iff; exact Hx). reflexivity.
Qed.

Lemma str_split_join (parts : list string) :
  parts <> [] -> forallb no_sep parts = true ->
  str_split SEP (py_join "/" parts) = parts.
Proof.
  induction parts as [|x parts IH]; intros Hne H; [congruence|].
  cbn [forallb] in H. apply andb_true_iff in H as [Hx Hps].
  destruct parts as [|y parts].
  - cbn [py_join]. apply str_split_no_sep, Hx.
  - change (py_join "/" (x :: y :: parts)) with (x ++ String SEP (py_join "/" (y :: parts))).
    rewrite str_split_app, str_split_no_sep by exact Hx.
    rewrite IH by (discriminate || exact Hps). reflexivity.
Qed.

Definition keep_part (x : string) : bool := negb (String.eqb x "") && negb (String.eqb x ".").

Lemma filter_keep_clean (parts : list string) :
  forallb clean_part parts = true -> filter keep_part parts = parts.
Proof.
  induction parts as [|x parts IH]; intros H; [reflexivity|].
  cbn [forallb] in H. apply andb_true_iff in H as [Hx Hps].
  unfold clean_part in Hx. apply andb_true_iff in Hx as [Hx H2].
  apply andb_true_iff in Hx as [_ H1].
  cbn [filter]. unfold keep_part at 1. rewrite H1, H2. cbn. rewrite IH; auto.
Qed.

Lemma split_parts_no_sep (s : string) : forallb no_sep (str_split SEP s) = true.
Proof.
  induction s as [|c s IH]; [reflexivity|]. cbn [str_split].
  destruct (Ascii.eqb c SEP) eqn:Hc; [exact IH|].
  destruct (str_split SEP s) as [|x xs]; cbn [forallb] in *.
  - unfold no_sep. cbn. rewrite Hc. reflexivity.
  - apply andb_true_iff in IH as [Hx Hxs]. unfold no_sep in *. cbn. rewrite Hc, Hxs.
    cbn. rewrite Hx. reflexivity.
Qed.

Lemma filter_keep_parts (l : list string) :
  forallb no_sep l = true -> forallb clean_part (filter keep_part l) = true.
Proof.
  induction l as [|x xs IH]; intros H; [reflexivity|].
  cbn [forallb] in H. apply andb_true_iff in H as [Hx Hxs]. cbn [filter].
  destruct (keep_part x) eqn:Hk.
  - cbn [forallb]. rewrite (IH Hxs). unfold clean_part. rewrite Hx. unfold keep_part in Hk.
    cbn [andb]. rewrite Hk. reflexivity.
  - apply IH, Hxs.
Qed.

Lemma parse_parts_clean (s : string) : forallb clean_part (p_parts (parse_path s)) = true.
Proof.
  unfold parse_path. destruct (splitroot s) as [root rel]. cbn [p_parts].
  apply (filter_keep_parts (str_split SEP rel)), split_parts_no_sep.
Qed.

Lemma clean_starts (parts : list string) :
  forallb clean_part parts = true -> starts_with_sep (py_join "/" parts) = false.
Proof.
  intros H. destruct parts as [|x parts]; [reflexivity|].
  cbn [forallb] in H. apply andb_true_iff in H as [Hx _].
  unfold clean_part, no_sep in Hx. apply andb_true_iff in Hx as [Hx H2].
  apply andb_true_iff in Hx as [Hx H1].
  destruct x as [|c x]; [discriminate|].
  cbn in Hx. apply negb_true_iff, orb_false_iff in Hx as [Hc _].
  destruct parts; cbn; exact Hc.
Qed.

Lemma clean_no_sep (l : list string) :
  forallb clean_part l = true -> forallb no_sep l = true.
Proof.
  induction l as [|x xs IH]; intros H; [reflexivity|].
  cbn [forallb] in *. apply andb_true_iff in H as [Hx Hxs].
  unfold clean_part in Hx. apply andb_true_iff in Hx as [Hx _].
  apply andb_true_iff in Hx as [Hx _]. rewrite Hx, IH; auto.
Qed.

Lemma splitroot_slash (t : string) :
  starts_with_sep t = false -> splitroot (String SEP t) = ("/", t).
Proof.
  intros H. destruct t as [|c t]; [reflexivity|]. cbn in H. cbn. rewrite H. reflexivity.
Qed.

Lemma splitroot_dslash (t : string) :
  starts_with_sep t = false -> splitroot (String SEP (String SEP t)) = ("//", t).
Proof.
  intros H. destruct t as [|c t]; [reflexivity|]. cbn in H. cbn. rewrite H. reflexivity.
Qed.

(** [str] of an absolute parsed path parses back to the same path. *)
Lemma parse_path_to_str (P : PurePath) :
  (p_root P = "/" \/ p_root P = "//") -> forallb clean_part (p_parts P) = true ->
  parse_path (path_to_str P) = P.
Proof.
  intros Hr Hc. destruct P as [root parts]. cbn [p_root p_parts] in *.
  unfold path_to_str. cbn [p_root p_parts].
  assert (Hs : starts_with_sep (py_join "/" parts) = false) by (apply clean_starts, Hc).
  destruct Hr as [-> | ->].
  - cbn [append String.eqb]. unfold parse_path.
    change (String "/" (py_join "/" parts)) with (String SEP (py_join "/" parts)).
    rewrite splitroot_slash by exact Hs. f_equal.
    destruct parts as [|x xs]; [reflexivity|].
    rewrite str_split_join by (discriminate || apply clean_no_sep, Hc).
    apply filter_keep_clean, Hc.
  - cbn [append String.eqb]. unfold parse_path.
    change (String "/" (String "/" (py_join "/" parts)))
      with (String SEP (String SEP (py_join "/" parts))).
    rewrite splitroot_dslash by exact Hs. f_equal.
    destruct parts as [|x xs]; [reflexivity|].
    rewrite str_split_join by (discriminate || apply clean_no_sep, Hc).
    apply filter_keep_clean, Hc.
Qed.

End PathProps.

Section PathJoin.

Lemma str_append_nil_r (s : string) : (s ++ "")%string = s.
Proof. induction s as [|c s IH]; [reflexivity|]. cbn. rewrite IH. reflexivity. Qed.

Lemma str_append_assoc (a b c : string) : (a ++ (b ++ c))%string = ((a ++ b) ++ c)%string.
Proof. induction a as [|x a IH]; [reflexivity|]. cbn. rewrite IH. reflexivity. Qed.

Lemma parse_path_keep (s : string) :
  parse_path s = mkPurePath (fst (splitroot s)) (filter keep_part (str_split SEP (snd (splitroot s)))).
Proof. unfold parse_path. destruct (splitroot s); reflexivity. Qed.

Ltac splitroot_cases :=
  repeat match goal with
  | |- context [Ascii.eqb ?a ?b] => destruct (Ascii.eqb a b)
  | |- context [match ?x with String _ _ => _ | EmptyString => _ end] => destruct x
  end.

Lemma splitroot_root_cases (s : string) :
  fst (splitroot s) = "" \/ fst (splitroot s) = "/" \/ fst (splitroot s) = "//".
Proof. unfold splitroot. splitroot_cases; cbn; auto. Qed.

Lemma splitroot_root_empty (s : string) :
  fst (splitroot s) = "" <-> starts_with_sep s = false.
Proof.
  unfold splitroot, starts_with_sep. splitroot_cases; cbn; split; (discriminate || reflexivity).
Qed.

Lemma path_is_absolute_parse (s : string) :
  path_is_absolute (parse_path s) = starts_with_sep s.
Proof.
  rewrite parse_path_keep. unfold path_is_absolute. cbn [p_root].
  destruct (starts_with_sep s) eqn:Hs.
  - destruct (String.eqb (fst (splitroot s)) "") eqn:He; [|reflexivity].
    apply String.eqb_eq, splitroot_root_empty in He. congruence.
  - apply splitroot_root_empty in Hs. rewrite Hs. reflexivity.
Qed.

(** Appending to an absolute path keeps its root; only a lone ["/"] or
    ["//"] followed by another slash would change it. *)
Lemma splitroot_app (base t : string) :
  starts_with_sep base = true ->
  ((base = "/" \/ base = "//") -> starts_with_sep t = false) ->
  splitroot (base ++ t) = (fst (splitroot base), (snd (splitroot base) ++ t)%string).
Proof.
  intros Hb Ht. destruct base as [|c1 r]; [discriminate|]. cbn in Hb.
  apply Ascii.eqb_eq in Hb; subst c1.
  destruct r as [|c2 r2].
  - cbn. destruct t as [|c t]; [reflexivity|]. cbn in Ht.
    rewrite Ht by (left; reflexivity). reflexivity.
  - cbn [append splitroot]. rewrite Ascii.eqb_refl.
    destruct (Ascii.eqb c2 SEP) eqn:H2; [|reflexivity].
    apply Ascii.eqb_eq in H2; subst c2.
    destruct r2 as [|c3 r3].
    + cbn. destruct t as [|c t]; [reflexivity|]. cbn in Ht.
      rewrite Ht by (right; reflexivity). reflexivity.
    + cbn [append]. destruct (Ascii.eqb c3 SEP); reflexivity.
Qed.

Lemma str_split_trailing (x : string) :
  str_split SEP (x ++ String SEP "") = (str_split SEP x ++ [""])%list.
Proof. rewrite str_split_app. reflexivity. Qed.

Lemma ends_with_sep_split (s : string) :
  ends_with_sep s = true -> exists x, s = (x ++ String SEP "")%string.
Proof.
  induction s as [|c s IH]; intros H; [discriminate|].
  destruct s as [|c' s'].
  - cbn in H. apply Ascii.eqb_eq in H. subst c. exists ""%string. reflexivity.
  - destruct (IH H) as [x Hx]. exists (String c x). rewrite Hx. reflexivity.
Qed.

Lemma starts_with_sep_app (a b : string) :
  a <> ""%string -> starts_with_sep (a ++ b) = starts_with_sep a.
Proof. destruct a; [congruence|reflexivity]. Qed.

Lemma splitroot_concat (s : string) : (fst (splitroot s) ++ snd (splitroot s))%string = s.
Proof.
  unfold splitroot.
  repeat match goal with
  | |- context [Ascii.eqb ?a ?b] => destruct (Ascii.eqb_spec a b); [subst a|]
  | |- context [match ?x with String _ _ => _ | EmptyString => _ end] => destruct x
  end; reflexivity.
Qed.

Lemma ends_with_sep_app (a b : string) :
  b <> ""%string -> ends_with_sep (a ++ b) = ends_with_sep b.
Proof.
  intros Hb. induction a as [|c a IH]; [reflexivity|]. cbn [append].
  rewrite <- IH. destruct a; cbn [append]; [destruct b; [congruence|reflexivity]|reflexivity].
Qed.

Lemma keep_part_empty : keep_part "" = false.
Proof. reflexivity. Qed.

(** The parts of [posix_join base p] for an absolute [base] and a relative
    [p]: those of [base] followed by those of [p]. *)
Lemma parse_posix_join (base p : string) :
  starts_with_sep base = true -> starts_with_sep p = false ->
  parse_path (posix_join base p) =
  mkPurePath (p_root (parse_path base)) (p_parts (parse_path base) ++ p_parts (parse_path p)).
Proof.
  intros Hb Hp. unfold posix_join. rewrite Hp.
  assert (Hbne : base <> ""%string) by (intros ->; discriminate).
  assert (Hp0 : fst (splitroot p) = "" /\ snd (splitroot p) = p).
  { destruct p as [|c p']; [split; reflexivity|]. cbn in Hp. cbn. rewrite Hp. split; reflexivity. }
  destruct Hp0 as [_ Hp0].
  rewrite (parse_path_keep p), Hp0. cbn [p_parts].
  destruct (String.eqb base "" || ends_with_sep base) eqn:He.
  - apply orb_true_iff in He as [He|He]; [apply String.eqb_eq in He; congruence|].
    rewrite !parse_path_keep, splitroot_app by
      (exact Hb || (intros [-> | ->]; exact Hp)).
    cbn [fst snd p_root p_parts]. f_equal.
    pose proof (splitroot_app base "" Hb (fun _ => eq_refl)) as H0.
    rewrite str_append_nil_r in H0. rewrite H0. cbn [fst snd].
    destruct (ends_with_sep_split _ He) as [b0 Hb0].
    (* the rest of [base] is empty or ends with a separator *)
    destruct (snd (splitroot base)) as [|c r] eqn:Hr.
    + cbn [append str_split filter]. rewrite keep_part_empty. reflexivity.
    + assert (Hr' : ends_with_sep (String c r) = true).
      { rewrite <- Hr, <- (ends_with_sep_app (fst (splitroot base))) by (rewrite Hr; discriminate).
        rewrite splitroot_concat. exact He. }
      destruct (ends_with_sep_split _ Hr') as [x Hx]. rewrite Hx.
      rewrite ?str_append_nil_r.
      replace ((x ++ String SEP "") ++ p)%string with (x ++ String SEP p)%string
        by (rewrite <- str_append_assoc; reflexivity).
      rewrite str_split_app, str_split_trailing.
      rewrite !filter_app. cbn [filter]. rewrite keep_part_empty, app_nil_r. reflexivity.
  - apply orb_false_iff in He as [_ He].
    assert (Hlone : ~ (base = "/" \/ base = "//")) by (intros [-> | ->]; discriminate).
    rewrite !parse_path_keep, splitroot_app by (exact Hb || (intros Hc; contradiction)).
    cbn [fst snd p_root p_parts]. f_equal.
    pose proof (splitroot_app base "" Hb (fun _ => eq_refl)) as H0.
    rewrite str_append_nil_r in H0. rewrite H0. cbn [fst snd].
    change ("/" ++ p)%string with (String SEP p).
    rewrite str_split_app, filter_app. reflexivity.
Qed.

End PathJoin.

Section ResolveProps.

Lemma parse_root_abs (s : string) :
  starts_with_sep s = true -> p_root (parse_path s) = "/" \/ p_root (parse_path s) = "//".
Proof.
  intros H. rewrite parse_path_keep. cbn [p_root].
  destruct (splitroot_root_cases s) as [He|Hr]; [|exact Hr].
  apply splitroot_root_empty in He. congruence.
Qed.

Lemma path_to_str_abs (P : PurePath) :
  (p_root P = "/" \/ p_root P = "//") -> starts_with_sep (path_to_str P) = true.
Proof.
  intros Hr. unfold path_to_str. destruct Hr as [Hr|Hr]; rewrite Hr; reflexivity.
Qed.

(** With a base directory that is an absolute path, as [main] sets it
    ([Path(args.pdf_dir).resolve()]), an absolute [pdf_path] is returned
    unchanged, and a relative one resolves to the path whose root is the
    base's and whose parts are the base's parts followed by the parts of
    [pdf_path], [".."] included. *)
Theorem resolve_pdf_path_parts (base p : string) :
  starts_with_sep base = true ->
  (starts_with_sep p = true -> resolve_pdf_path (Some base) p = p) /\
  (starts_with_sep p = false ->
   parse_path (resolve_pdf_path (Some base) p) =
   mkPurePath (p_root (parse_path base)) (p_parts (parse_path base) ++ p_parts (parse_path p))).
Proof.
  intros Hb. unfold resolve_pdf_path. rewrite path_is_absolute_parse. split; intros Hp.
  - rewrite Hp. reflexivity.
  - rewrite Hp. cbn [negb]. rewrite <- parse_posix_join by assumption.
    apply parse_path_to_str.
    + rewrite parse_posix_join by assumption. cbn [p_root]. apply parse_root_abs, Hb.
    + apply parse_parts_clean.
Qed.

(** With an absolute base directory every resolved path is absolute, so
    resolving it again changes nothing. *)
Theorem resolve_pdf_path_absolute (base p : string) :
  starts_with_sep base = true ->
  starts_with_sep (resolve_pdf_path (Some base) p) = true /\
  resolve_pdf_path (Some base) (resolve_pdf_path (Some base) p) = resolve_pdf_path (Some base) p.
Proof.
  intros Hb.
  assert (Habs : starts_with_sep (resolve_pdf_path (Some base) p) = true).
  { unfold resolve_pdf_path. rewrite path_is_absolute_parse.
    destruct (starts_with_sep p) eqn:Hp; [exact Hp|]. cbn [negb].
    apply path_to_str_abs. rewrite parse_posix_join by assumption. apply parse_root_abs, Hb. }
  split; [exact Habs|].
  unfold resolve_pdf_path at 1. rewrite path_is_absolute_parse, Habs. reflexivity.
Qed.

End ResolveProps.

Section Base64ToolProps.
Context {E : PdfEngine} {PS : PdfStream} {RE : PyRe}.

Lemma run_b64_opened {A} (data : string) (bytes : list Byte.byte) (pgs : list Page)
    (body : M A) (on_error : string -> A) :
  b64decode data = inr bytes -> open_stream bytes = inr pgs ->
  run_b64 data body on_error =
  (match fst (body (open_doc pgs)) with Ok a => a | Raise e => on_error e end,
   Some (snd (body (open_doc pgs)))).
Proof.
  intros Hd Ho. unfold run_b64, run_b64_with. rewrite Hd, Ho.
  destruct (body (open_doc pgs)). reflexivity.
Qed.

(** [extract_text_from_pdf_base64] shares the defect of the path tool: for a
    page number outside [0, len(doc)) the document is closed before the
    message reads [len(doc)], and the reply is the error "document closed". *)
Theorem extract_text_base64_invalid_page
    (data : string) (bytes : list Byte.byte) (pgs : list Page) (z : Z) (fmt : string) :
  b64decode data = inr bytes -> open_stream bytes = inr pgs ->
  ((z < 0)%Z \/ (Z.of_nat (List.length pgs) <= z)%Z) ->
  extract_text_from_pdf_base64 data (Some z) fmt
  = (XError "document closed", Some (mkSt (map (fun p => mkPageSt p []) pgs) true [])).
Proof.
  intros Hd Ho Hout. unfold extract_text_from_pdf_base64.
  rewrite (run_b64_opened data bytes pgs _ _ Hd Ho).
  unfold extract_text_body, bind, ret, doc_len, doc_close. cbn [st_closed st_pages open_doc].
  destruct (z <? 0)%Z eqn:Hz.
  - reflexivity.
  - apply Z.ltb_ge in Hz. destruct Hout as [Hout|Hout]; [lia|].
    assert (Hle : (Z.of_nat (List.length pgs) <=? z)%Z = true) by (apply Z.leb_le; exact Hout).
    cbn. rewrite length_map, Hle. reflexivity.
Qed.

(** On a string that decodes and opens, [redact_text_by_search_base64] does
    what [redact_text_by_search] does on that document, with the same final
    document, and returns the saved document base64-encoded beside the same
    counts, summary and search strings. *)
Theorem redact_text_by_search_base64_agrees
    (data : string) (bytes : list Byte.byte) (pgs : list Page) (ss : list string)
    (cs : bool) (fc : Color) (ot : string) (tc : Color) :
  b64decode data = inr bytes -> open_stream bytes = inr pgs ->
  let '(r, s) := redact_text_by_search ss cs fc ot tc (open_doc pgs) in
  redact_text_by_search_base64 data ss cs fc ot tc =
  (match r with
   | Ok (RSResult t pm sm ss') =>
       RSB64Result (b64encode (write_pdf (page_pairs (st_pages s)))) t pm sm ss'
   | Ok (RSError e) | Raise e => RSB64Error e
   end, Some s).
Proof.
  intros Hd Ho. unfold redact_text_by_search_base64.
  rewrite (run_b64_opened data bytes pgs _ _ Hd Ho).
  unfold redact_text_by_search, redact_text_by_search_body, redact_text_by_search_base64_body,
    try_except, bind, ret,
    doc_save, doc_save_buffer, doc_close, log, doc_len.
  cbn [open_doc st_closed st_pages].
  destruct (redact_search_pages _ _ _ _ _ _) as [[r|e] s1]; cbn beta iota; reflexivity.
Qed.

(** On a string that decodes and opens, [redact_by_coordinates_base64]
    does what [redact_by_coordinates] does on that document, with the same
    final document, and returns the saved document base64-encoded beside the
    same count and per-directive entries. *)
Theorem redact_by_coordinates_base64_agrees
    (data : string) (bytes : list Byte.byte) (pgs : list Page) (ds : list Directive)
    (fc : Color) (ot : string) :
  b64decode data = inr bytes -> open_stream bytes = inr pgs ->
  let '(r, s) := redact_by_coordinates ds fc ot (open_doc pgs) in
  redact_by_coordinates_base64 data ds fc ot =
  (match r with
   | Ok (RCResult t es) => RCB64Result (b64encode (write_pdf (page_pairs (st_pages s)))) t es
   | Ok (RCError e) | Raise e => RCB64Error e
   end, Some s).
Proof.
  intros Hd Ho. unfold redact_by_coordinates_base64.
  rewrite (run_b64_opened data bytes pgs _ _ Hd Ho).
  unfold redact_by_coordinates, redact_by_coordinates_body, redact_by_coordinates_base64_body,
    try_except, bind, ret, doc_save, doc_save_buffer, doc_close, log.
  destruct (coord_loop _ _ _ _ (open_doc pgs)) as [[a|e] s1]; cbn beta iota;
    [|reflexivity].
  destruct (doc_len s1) as [[n|e] s2]; cbn beta iota; [|reflexivity].
  destruct (apply_all (range n) s2) as [[u|e] s3]; cbn beta iota; reflexivity.
Qed.

(** On a string that decodes and opens, [redact_images_in_pdf_base64] does
    what [redact_images_in_pdf] does on that document, with the same final
    document, and returns the saved document base64-encoded beside the same
    counts and summary. *)
Theorem redact_images_in_pdf_base64_agrees
    (data : string) (bytes : list Byte.byte) (pgs : list Page) (pns : option (list Z))
    (fc : Color) (ot : string) :
  b64decode data = inr bytes -> open_stream bytes = inr pgs ->
  let '(r, s) := redact_images_in_pdf pns fc ot (open_doc pgs) in
  redact_images_in_pdf_base64 data pns fc ot =
  (match r with
   | Ok (RIResult t pp sm) => RIB64Result (b64encode (write_pdf (page_pairs (st_pages s)))) t pp sm
   | Ok (RIError e) | Raise e => RIB64Error e
   end, Some s).
Proof.
  intros Hd Ho. unfold redact_images_in_pdf_base64.
  rewrite (run_b64_opened data bytes pgs _ _ Hd Ho).
  unfold redact_images_in_pdf, redact_images_in_pdf_body, redact_images_in_pdf_base64_body,
    try_except, bind, ret, doc_save, doc_save_buffer, doc_close, log.
  destruct pns as [ps|]; cbn beta iota.
  - destruct (redact_image_pages _ _ _ _ _ (open_doc pgs)) as [[r|e] s1]; cbn beta iota;
      reflexivity.
  - unfold doc_len. cbn [open_doc st_closed st_pages].
    destruct (redact_image_pages _ _ _ _ _ _) as [[r|e] s1]; cbn beta iota; reflexivity.
Qed.

End Base64ToolProps.

Section InfoProps.
Context {E : PdfEngine} {I : PdfInfoEngine}.

Lemma page_infos_ok (s : St) (ks : list nat) (ps : list Page) :
  st_closed s = false ->
  Forall2 (fun k p => option_map pcontent (nth_error (st_pages s) k) = Some p) ks ps ->
  page_infos ks s =
  (Ok (map (fun '(k, pg) => mkPageInfo k (page_width pg) (page_height pg) (page_rotation pg)
                              (List.length (get_images pg)) (List.length (page_get_links pg)))
           (combine ks ps)), s).
Proof.
  intros Hc HF. induction HF as [|k p ks ps Hk HF IH]; [reflexivity|].
  destruct (nth_error (st_pages s) k) as [q|] eqn:Hq; [|discriminate].
  cbn in Hk. injection Hk as <-.
  assert (Hlt : k < List.length (st_pages s)) by (apply nth_error_Some; congruence).
  cbn [page_infos]. unfold bind at 1. rewrite doc_getitem_ok by assumption.
  unfold bind at 1. rewrite (page_at_ok s k q Hq).
  unfold bind at 1. unfold page_get_images, bind at 1. rewrite (page_at_ok s k q Hq).
  unfold ret at 1. unfold bind at 1. rewrite IH. reflexivity.
Qed.

Lemma nth_error_seq_pages (pre l : list PageSt) :
  Forall2 (fun k p => option_map pcontent (nth_error (pre ++ l) k) = Some p)
          (seq (List.length pre) (List.length l)) (map pcontent l).
Proof.
  revert pre. induction l as [|x l IH]; intros pre; [constructor|].
  cbn [List.length seq map]. constructor.
  - rewrite nth_error_app2 by lia. rewrite Nat.sub_diag. reflexivity.
  - specialize (IH (pre ++ [x])%list). rewrite length_app, Nat.add_comm in IH. cbn in IH.
    rewrite <- app_assoc in IH. exact IH.
Qed.

(** [get_pdf_info] on an opened document reports [filename] as the resolved
    path, the page count, and one entry per page in order: its index, size,
    rotation, number of images and number of links. It stages, commits and
    saves nothing: the pages are left as opened and the document is closed. *)
Theorem get_pdf_info_pages (base : option string) (path : string) (md : Metadata)
    (enc : bool) (pgs : list Page) :
  get_pdf_info base path md enc (open_doc pgs) =
  (Ok (IResult (Some (resolve_pdf_path base path)) (List.length pgs) md enc
         (map (fun '(k, pg) => mkPageInfo k (page_width pg) (page_height pg) (page_rotation pg)
                                 (List.length (get_images pg)) (List.length (page_get_links pg)))
              (combine (range (List.length pgs)) pgs))),
   mkSt (map (fun p => mkPageSt p []) pgs) true []).
Proof.
  unfold get_pdf_info, get_pdf_info_body, try_except. unfold bind at 1, doc_len.
  cbn [open_doc st_closed st_pages]. rewrite length_map.
  unfold bind at 1. rewrite page_infos_ok with (ps := pgs).
  - reflexivity.
  - reflexivity.
  - pose proof (nth_error_seq_pages [] (map (fun p => mkPageSt p []) pgs)) as H.
    rewrite map_map, length_map in H. cbn [pcontent] in H. rewrite map_id in H. exact H.
Qed.

End InfoProps.

Section InfoBase64Props.
Context {E : PdfEngine} {PS : PdfStream} {I : PdfInfoEngine}.

(** [get_pdf_info_base64] on a string that decodes and opens reports, with
    no [filename], the same page count and per-page entries as
    [get_pdf_info], the metadata of the opened bytes, and leaves the
    document closed and unchanged. *)
Theorem get_pdf_info_base64_pages (data : string) (bytes : list Byte.byte) (pgs : list Page)
    (md : list Byte.byte -> Metadata) (enc : list Byte.byte -> bool) :
  b64decode data = inr bytes -> open_stream bytes = inr pgs ->
  get_pdf_info_base64 data md enc =
  (IResult None (List.length pgs) (md bytes) (enc bytes)
     (map (fun '(k, pg) => mkPageInfo k (page_width pg) (page_height pg) (page_rotation pg)
                             (List.length (get_images pg)) (List.length (page_get_links pg)))
          (combine (range (List.length pgs)) pgs)),
   Some (mkSt (map (fun p => mkPageSt p []) pgs) true [])).
Proof.
  intros Hd Ho. unfold get_pdf_info_base64, run_b64_with. rewrite Hd, Ho.
  unfold get_pdf_info_body. unfold bind at 1, doc_len.
  cbn [open_doc st_closed st_pages]. rewrite length_map.
  unfold bind at 1. rewrite page_infos_ok with (ps := pgs).
  - reflexivity.
  - reflexivity.
  - pose proof (nth_error_seq_pages [] (map (fun p => mkPageSt p []) pgs)) as H.
    rewrite map_map, length_map in H. cbn [pcontent] in H. rewrite map_id in H. exact H.
Qed.

End InfoBase64Props.

Section SearchPageProps.
Context {E : PdfEngine} {RE : PyRe}.

Lemma rect_matches_length (p : Z) (txt kind : string) (rects : list Rect) :
  List.length (rect_matches p txt kind rects) = List.length rects.
Proof. apply length_map. Qed.

Lemma doc_getitem_mod (s : St) (z : Z) :
  st_closed s = false -> List.length (st_pages s) <> 0 ->
  (z < Z.of_nat (List.length (st_pages s)))%Z ->
  doc_getitem z s = (Ok (Z.to_nat (z mod Z.of_nat (List.length (st_pages s)))), s).
Proof.
  intros Hc Hn Hz. unfold doc_getitem, bind, doc_len, ret. rewrite Hc.
  apply Z.ltb_lt in Hz. rewrite Hz.
  destruct (0 <=? z)%Z eqn:H0.
  - apply Z.leb_le in H0. apply Z.ltb_lt in Hz. rewrite Z.mod_small by lia. reflexivity.
  - apply Nat.eqb_neq in Hn. rewrite Hn. reflexivity.
Qed.

Lemma doc_getitem_high (s : St) (z : Z) :
  st_closed s = false -> (Z.of_nat (List.length (st_pages s)) <= z)%Z ->
  doc_getitem z s = (Raise ("page " ++ Z_to_string z ++ " not in document"), s).
Proof.
  intros Hc Hz. unfold doc_getitem, bind, doc_len, raise. rewrite Hc.
  assert (H : (z <? Z.of_nat (List.length (st_pages s)))%Z = false) by (apply Z.ltb_ge; lia).
  rewrite H. reflexivity.
Qed.

(** [search_text_in_pdf] with an explicit page number [z] below the page
    count of a document: a plain search looks on the page [doc[z]], the page
    [z mod len(doc)] (a negative number counts from the end), but every match
    reports the number [z] as given; no page is read and the document is
    closed.  When the locator returns [None] on that page (pymupdf does so
    for an empty needle), iterating over it raises before [doc.close()]:
    the tool returns the error ['NoneType' object is not iterable] and the
    document is left open and unchanged. *)
Theorem search_text_explicit_page (pgs : list Page) (z : Z) (k : nat) (pg : Page)
    (needle : string) (case_sensitive : bool) :
  (z < Z.of_nat (List.length pgs))%Z ->
  Z.to_nat (z mod Z.of_nat (List.length pgs)) = k -> nth_error pgs k = Some pg ->
  search_text_in_pdf needle case_sensitive false (Some z) (open_doc pgs) =
  match search_for pg needle with
  | Some rects =>
      (Ok (SResult needle (List.length rects) (rect_matches z needle "exact" rects)),
       mkSt (map (fun p => mkPageSt p []) pgs) true [])
  | None => (Ok (SError "'NoneType' object is not iterable"), open_doc pgs)
  end.
Proof.
  intros Hz Hk Hpg.
  assert (Hn : List.length pgs <> 0) by (destruct pgs; [destruct k; discriminate|discriminate]).
  unfold search_text_in_pdf, try_except, search_text_body, bind, ret. cbn beta iota.
  cbn [search_pages]. unfold bind at 1.
  rewrite doc_getitem_mod by (cbn [open_doc st_closed st_pages]; rewrite ?length_map; first [reflexivity | assumption]).
  cbn [open_doc st_pages]. rewrite length_map, Hk.
  unfold page_search_for, bind, ret. cbn beta iota.
  rewrite (page_at_ok _ k (mkPageSt pg [])) by (cbn; rewrite nth_error_map, Hpg; reflexivity).
  cbn [pcontent]. destruct (search_for pg needle) as [rects|]; cbn [iter_rects].
  - unfold ret. unfold doc_close. cbn beta iota. cbn [pcontent app st_pages st_trace].
    rewrite rect_matches_length. reflexivity.
  - reflexivity.
Qed.

(** [search_text_in_pdf] with an explicit page number at or beyond the page
    count returns the error of [doc[z]], "page z not in document", and the
    document is left open: the error is raised before [doc.close()]. *)
Theorem search_text_page_too_high (pgs : list Page) (z : Z) (needle : string)
    (case_sensitive use_regex : bool) :
  (Z.of_nat (List.length pgs) <= z)%Z ->
  search_text_in_pdf needle case_sensitive use_regex (Some z) (open_doc pgs) =
  (Ok (SError ("page " ++ Z_to_string z ++ " not in document")), open_doc pgs).
Proof.
  intros Hz. unfold search_text_in_pdf, try_except, search_text_body, bind, ret.
  cbn beta iota. cbn [search_pages]. unfold bind at 1.
  rewrite doc_getitem_high by (cbn [open_doc st_closed st_pages]; rewrite ?length_map; first [reflexivity | assumption]).
  reflexivity.
Qed.

End SearchPageProps.

Section Base64Padding.

Lemma is_ascii_str_app (a b : string) :
  is_ascii_str (a ++ b) = is_ascii_str a && is_ascii_str b.
Proof.
  induction a as [|c a IH]; [reflexivity|]. cbn [append is_ascii_str].
  rewrite IH, andb_assoc. reflexivity.
Qed.

Lemma b64encode_app_decodes (n : nat) :
  forall (bs : list Byte.byte) (t : string) (out : list Byte.byte) (pads : nat) (lc : Z),
  List.length bs <= n -> List.length bs mod 3 <> 0 ->
  a2b_loop (b64encode bs ++ t) 0 pads lc out = inr (out ++ bs)%list.
Proof.
  induction n as [|n IH]; intros bs t out pads lc Hlen Hmod.
  - destruct bs; [cbn in Hmod; congruence|simpl in Hlen; lia].
  - destruct bs as [|a [|b [|c rest]]].
    + cbn in Hmod. congruence.
    + pose proof (single_bits _ (byte_to_Z_bounds a)) as [S1 [S2 D1]].
      cbn [b64encode append]. rewrite a2b_loop_char by exact S1.
      rewrite a2b_loop_char by exact S2.
      rewrite (byte_of_Z_eq _ a D1). reflexivity.
    + pose proof (pair_bits _ _ (byte_to_Z_bounds a) (byte_to_Z_bounds b))
        as [S1 [S2 [S3 [D1 D2]]]].
      cbn [b64encode append]. rewrite a2b_loop_char by exact S1.
      rewrite a2b_loop_char by exact S2. rewrite a2b_loop_char by exact S3.
      rewrite (byte_of_Z_eq _ a D1), (byte_of_Z_eq _ b D2).
      cbn. now rewrite <- app_assoc.
    + pose proof (group_bits _ _ _ (byte_to_Z_bounds a) (byte_to_Z_bounds b)
                    (byte_to_Z_bounds c)) as [S1 [S2 [S3 [S4 [D1 [D2 D3]]]]]].
      cbn [b64encode append]. rewrite a2b_loop_char by exact S1.
      rewrite a2b_loop_char by exact S2. rewrite a2b_loop_char by exact S3.
      rewrite a2b_loop_char by exact S4.
      rewrite (byte_of_Z_eq _ a D1), (byte_of_Z_eq _ b D2), (byte_of_Z_eq _ c D3).
      rewrite IH.
      * rewrite <- !app_assoc. reflexivity.
      * simpl in Hlen; lia.
      * cbn [List.length] in Hmod.
        replace (S (S (S (List.length rest)))) with (List.length rest + 1 * 3) in Hmod by lia.
        rewrite Nat.Div0.mod_add in Hmod. exact Hmod.
Qed.

(** When the number of bytes is not a multiple of three, the encoding ends
    in a pad sequence, and [base64.b64decode] ignores whatever ASCII text
    follows it: decoding the encoding with anything appended gives back the
    bytes. *)
Theorem b64decode_stops_after_padding (bs : list Byte.byte) (t : string) :
  List.length bs mod 3 <> 0 -> is_ascii_str t = true ->
  b64decode (b64encode bs ++ t) = inr bs.
Proof.
  intros Hmod Ht. unfold b64decode. rewrite is_ascii_str_app, b64encode_ascii, Ht.
  exact (b64encode_app_decodes (List.length bs) bs t [] 0 0 (le_n _) Hmod).
Qed.

(** [base64.b64encode] always pads: the encoding of [n] bytes has
    [4 * ceil(n / 3)] characters. *)
Theorem b64encode_length (bs : list Byte.byte) :
  String.length (b64encode bs) = (List.length bs + 2) / 3 * 4.
Proof.
  remember (List.length bs) as n eqn:Hn. revert bs Hn.
  induction n as [n IH] using lt_wf_ind. intros bs Hn.
  destruct bs as [|a [|b [|c rest]]]; cbn [b64encode String.length]; subst n;
    cbn [List.length]; try reflexivity.
  rewrite (IH (List.length rest)) by (reflexivity || (cbn [List.length]; lia)).
  replace (S (S (S (List.length rest))) + 2) with (List.length rest + 2 + 1 * 3) by lia.
  rewrite Nat.div_add by lia. lia.
Qed.

End Base64Padding.

Section VerifyShape.
Context {E : PdfEngine}.

Lemma compare_pages_pages (k : nat) (orig red : list Page) :
  map tc_page (compare_pages k orig red) = seq k (Nat.min (List.length orig) (List.length red)).
Proof.
  revert k red. induction orig as [|o os IH]; intros k red; [reflexivity|].
  destruct red as [|r rs]; [reflexivity|]. cbn [compare_pages map List.length Nat.min seq].
  rewrite IH. reflexivity.
Qed.

(** The page-by-page text comparison of [verify_redactions] has one entry
    for each page index below the smaller of the two page counts, in order;
    pages beyond the shorter document are never compared. *)
Theorem verify_text_comparison_pages (orig red : list Page) (ss : option (list string)) :
  map tc_page (v_text_comparison (verify_redactions orig red ss))
  = range (Nat.min (List.length orig) (List.length red)).
Proof. apply compare_pages_pages. Qed.

Definition has_hits (s : string) (kp : nat * Page) : bool :=
  match search_for (snd kp) s with Some (_ :: _) => true | _ => false end.

Lemma scan_pages_spec (str : string) (k : nat) (pgs : list Page) (found : bool)
    (pf : list nat) :
  scan_pages str k pgs found pf =
  (found || existsb (has_hits str) (combine (seq k (List.length pgs)) pgs),
   (pf ++ map fst (filter (has_hits str) (combine (seq k (List.length pgs)) pgs)))%list).
Proof.
  revert k found pf. induction pgs as [|pg pgs IH]; intros k found pf.
  - cbn. rewrite orb_false_r, app_nil_r. reflexivity.
  - cbn [scan_pages List.length seq combine existsb filter]. unfold has_hits at 1 3. cbn [snd].
    destruct (search_for pg str) as [[|r rs]|].
    + rewrite IH. reflexivity.
    + rewrite IH. cbn [map fst]. rewrite <- app_assoc, orb_true_r. reflexivity.
    + rewrite IH. reflexivity.
Qed.

(** Each string check of [verify_redactions] lists, in ascending order, the
    pages of the redacted document on which the engine's search finds the
    string, and reports the string as found exactly when that list is not
    empty. *)
Theorem verify_string_check_pages (orig red : list Page) (ss : option (list string))
    (c : StringCheck) :
  In c (v_string_checks (verify_redactions orig red ss)) ->
  sc_pages_found c
    = map fst (filter (has_hits (sc_search_string c)) (combine (range (List.length red)) red))
  /\ sc_found_in_redacted c = match sc_pages_found c with [] => false | _ => true end.
Proof.
  intros Hin. cbn [v_string_checks verify_redactions] in Hin.
  destruct ss as [ss|]; [|contradiction].
  destruct (py_truthy (PList (map PStr ss))); [|contradiction].
  apply in_map_iff in Hin as [s [<- _]].
  unfold string_check. rewrite scan_pages_spec. cbn [sc_pages_found sc_found_in_redacted
    sc_search_string fst snd app orb]. split; [reflexivity|].
  unfold range. generalize (combine (seq 0 (List.length red)) red) as l. intros l.
  induction l as [|kp l IHl]; [reflexivity|]. cbn [existsb filter].
  destruct (has_hits s kp); [reflexivity|exact IHl].
Qed.

End VerifyShape.

(** ** Witnesses: the theorems with hypotheses, applied to concrete inputs *)

Module Witnesses.
Import Toy.

Lemma extract_text_invalid_page_witness :
  ((5 < 0)%Z \/ (Z.of_nat (List.length Toy.scenario) <= 5)%Z)
  /\ extract_text_from_pdf (E := Toy.toy_engine) (Some 5%Z) "text" (open_doc Toy.scenario)
     = (Ok (XError "document closed"), mkSt (st_pages (open_doc Toy.scenario)) true []).
Proof.
  split.
  - right. cbn. lia.
  - apply (@extract_text_invalid_page_reports_closed_document Toy.toy_engine).
    right. cbn. lia.
Defined.

Lemma load_close_then_not_found_witness :
  NoDup (SessionStore.keys (E := Toy.toy_engine) [])
  /\ SessionStore.load (E := Toy.toy_engine) (fun _ : string => Some Toy.scenario)
       (fun src => src) "report.pdf" (Some "doc") []
     = inr (SessionStore.mkSessionInfo "doc" 2, [("doc", open_doc Toy.scenario)])
  /\ ((exists s2, SessionStore.close "doc" [("doc", open_doc Toy.scenario)] = inr s2
        /\ ~ In "doc" (SessionStore.keys s2)
        /\ SessionStore.get "doc" s2 = inl (SessionStore.NotFoundError (SessionStore.keys s2))
        /\ (forall A (tool : M A), SessionStore.with_session "doc" tool s2
                                  = inl (SessionStore.NotFoundError (SessionStore.keys s2)))
        /\ SessionStore.close "doc" s2 = inl (SessionStore.NotFoundError (SessionStore.keys s2)))
      /\ (forall s id', ~ In id' (SessionStore.keys s) ->
            SessionStore.close (E := Toy.toy_engine) id' s
            = inl (SessionStore.NotFoundError (SessionStore.keys s)))).
Proof.
  split; [constructor|]. split; [reflexivity|].
  apply (@SessionStoreProps.load_close_then_not_found toy_engine string
           (fun _ : string => Some Toy.scenario) (fun src => src) "report.pdf" "doc" []
           [("doc", open_doc (E := toy_engine) Toy.scenario)] (SessionStore.mkSessionInfo "doc" 2)).
  - constructor.
  - reflexivity.
Defined.

Lemma b64decode_skips_non_alphabet_witness :
  is_ascii_str ("TW" ++ NL ++ "Fu-") = true
  /\ b64decode ("TW" ++ NL ++ "Fu-") = b64decode (b64_strip ("TW" ++ NL ++ "Fu-")).
Proof.
  split; [vm_compute; reflexivity|].
  apply b64decode_skips_non_alphabet. vm_compute. reflexivity.
Defined.

Lemma b64decode_unpadded_witness :
  is_ascii_str "TQ" = true /\ has_pad "TQ" = false
  /\ (let k := data_count "TQ" in
      (k mod 4 = 0 -> exists bs, b64decode "TQ" = inr bs /\ List.length bs = k / 4 * 3)
      /\ (k mod 4 = 1 ->
          b64decode "TQ" = inl ("Invalid base64-encoded string: number of data characters ("
                                ++ nat_to_string k ++ ") cannot be 1 more than a multiple of 4"))
      /\ (2 <= k mod 4 -> b64decode "TQ" = inl "Incorrect padding")).
Proof.
  split; [reflexivity|]. split; [reflexivity|].
  apply b64decode_unpadded; reflexivity.
Defined.

Lemma b64decode_stops_after_padding_witness :
  List.length [Byte.x4d] mod 3 <> 0 /\ is_ascii_str "TWFu" = true
  /\ b64decode (b64encode [Byte.x4d] ++ "TWFu") = inr [Byte.x4d].
Proof.
  split; [cbn; lia|]. split; [reflexivity|].
  apply b64decode_stops_after_padding; [cbn; lia | reflexivity].
Defined.

Lemma resolve_pdf_path_parts_witness :
  starts_with_sep "/srv/pdfs" = true
  /\ (starts_with_sep "../etc/x.pdf" = true ->
      resolve_pdf_path (Some "/srv/pdfs") "../etc/x.pdf" = "../etc/x.pdf")
  /\ (starts_with_sep "../etc/x.pdf" = false ->
      parse_path (resolve_pdf_path (Some "/srv/pdfs") "../etc/x.pdf") =
      mkPurePath (p_root (parse_path "/srv/pdfs"))
        (p_parts (parse_path "/srv/pdfs") ++ p_parts (parse_path "../etc/x.pdf"))).
Proof.
  split; [reflexivity|]. apply resolve_pdf_path_parts. reflexivity.
Defined.

Lemma resolve_pdf_path_absolute_witness :
  starts_with_sep "/srv/pdfs" = true
  /\ starts_with_sep (resolve_pdf_path (Some "/srv/pdfs") "a.pdf") = true
  /\ resolve_pdf_path (Some "/srv/pdfs") (resolve_pdf_path (Some "/srv/pdfs") "a.pdf")
     = resolve_pdf_path (Some "/srv/pdfs") "a.pdf".
Proof.
  split; [reflexivity|]. apply resolve_pdf_path_absolute. reflexivity.
Defined.

Lemma extract_text_base64_invalid_page_witness :
  b64decode hello_b64 = inr (list_byte_of_string "hello")
  /\ open_stream (E := toy_engine) (list_byte_of_string "hello") = inr [page_of "hello"]
  /\ ((1 < 0)%Z \/ (Z.of_nat (List.length [page_of "hello"]) <= 1)%Z)
  /\ extract_text_from_pdf_base64 (E := toy_engine) hello_b64 (Some 1%Z) "text"
     = (XError "document closed",
        Some (mkSt (map (fun p => mkPageSt p []) [page_of "hello"]) true [])).
Proof.
  split; [vm_compute; reflexivity|]. split; [vm_compute; reflexivity|].
  split; [right; cbn; lia|].
  apply (extract_text_base64_invalid_page (E := toy_engine) hello_b64
           (list_byte_of_string "hello")).
  - vm_compute. reflexivity.
  - vm_compute. reflexivity.
  - right. cbn. lia.
Defined.

Lemma redact_text_by_search_base64_agrees_witness :
  b64decode hello_b64 = inr (list_byte_of_string "hello")
  /\ open_stream (E := toy_engine) (list_byte_of_string "hello") = inr [page_of "hello"]
  /\ (let '(r, s) := redact_text_by_search ["ll"] false BLACK "" WHITE
                       (open_doc [page_of "hello"]) in
      redact_text_by_search_base64 hello_b64 ["ll"] false BLACK "" WHITE =
      (match r with
       | Ok (RSResult t pm sm ss') =>
           RSB64Result (b64encode (write_pdf (page_pairs (st_pages s)))) t pm sm ss'
       | Ok (RSError e) | Raise e => RSB64Error e
       end, Some s)).
Proof.
  split; [vm_compute; reflexivity|]. split; [vm_compute; reflexivity|].
  apply (redact_text_by_search_base64_agrees (E := toy_engine) hello_b64
           (list_byte_of_string "hello")); vm_compute; reflexivity.
Defined.

Lemma redact_by_coordinates_base64_agrees_witness :
  b64decode hello_b64 = inr (list_byte_of_string "hello")
  /\ open_stream (E := toy_engine) (list_byte_of_string "hello") = inr [page_of "hello"]
  /\ (let '(r, s) := redact_by_coordinates
                       [[("page", PInt 0); ("bbox", PList [PInt 0; PInt 0; PInt 2; PInt 1])]]
                       BLACK "" (open_doc [page_of "hello"]) in
      redact_by_coordinates_base64 hello_b64
        [[("page", PInt 0); ("bbox", PList [PInt 0; PInt 0; PInt 2; PInt 1])]] BLACK "" =
      (match r with
       | Ok (RCResult t es) =>
           RCB64Result (b64encode (write_pdf (page_pairs (st_pages s)))) t es
       | Ok (RCError e) | Raise e => RCB64Error e
       end, Some s)).
Proof.
  split; [vm_compute; reflexivity|]. split; [vm_compute; reflexivity|].
  apply (redact_by_coordinates_base64_agrees (E := toy_engine) hello_b64
           (list_byte_of_string "hello")); vm_compute; reflexivity.
Defined.

Lemma redact_images_in_pdf_base64_agrees_witness :
  b64decode hello_b64 = inr (list_byte_of_string "hello")
  /\ open_stream (E := toy_engine) (list_byte_of_string "hello") = inr [page_of "hello"]
  /\ (let '(r, s) := redact_images_in_pdf None BLACK "" (open_doc [page_of "hello"]) in
      redact_images_in_pdf_base64 hello_b64 None BLACK "" =
      (match r with
       | Ok (RIResult t pp sm) =>
           RIB64Result (b64encode (write_pdf (page_pairs (st_pages s)))) t pp sm
       | Ok (RIError e) | Raise e => RIB64Error e
       end, Some s)).
Proof.
  split; [vm_compute; reflexivity|]. split; [vm_compute; reflexivity|].
  apply (redact_images_in_pdf_base64_agrees (E := toy_engine) hello_b64
           (list_byte_of_string "hello")); vm_compute; reflexivity.
Defined.

Lemma get_pdf_info_base64_pages_witness :
  b64decode hello_b64 = inr (list_byte_of_string "hello")
  /\ open_stream (E := toy_engine) (list_byte_of_string "hello") = inr [page_of "hello"]
  /\ get_pdf_info_base64 hello_b64 (fun _ => []) (fun _ => false) =
     (IResult None (List.length [page_of "hello"]) [] false
        (map (fun '(k, pg) => mkPageInfo k (page_width pg) (page_height pg) (page_rotation pg)
                                (List.length (get_images pg)) (List.length (page_get_links pg)))
             (combine (range (List.length [page_of "hello"])) [page_of "hello"])),
      Some (mkSt (map (fun p => mkPageSt p []) [page_of "hello"]) true [])).
Proof.
  split; [vm_compute; reflexivity|]. split; [vm_compute; reflexivity|].
  apply (get_pdf_info_base64_pages (E := toy_engine) hello_b64
           (list_byte_of_string "hello")); vm_compute; reflexivity.
Defined.

Lemma search_text_explicit_page_witness :
  ((-1) < Z.of_nat (List.length scenario))%Z
  /\ Z.to_nat ((-1) mod Z.of_nat (List.length scenario)) = 1
  /\ nth_error scenario 1 = Some (page_of "nothing to see")
  /\ search_text_in_pdf "see" false false (Some (-1)%Z) (open_doc scenario) =
     match search_for (page_of "nothing to see") "see" with
     | Some rects =>
         (Ok (SResult "see" (List.length rects) (rect_matches (-1) "see" "exact" rects)),
          mkSt (map (fun p => mkPageSt p []) scenario) true [])
     | None => (Ok (SError "'NoneType' object is not iterable"), open_doc scenario)
     end.
Proof.
  split; [cbn; lia|]. split; [reflexivity|]. split; [reflexivity|].
  apply (search_text_explicit_page (E := toy_engine) scenario (-1) 1); [cbn; lia | reflexivity | reflexivity].
Defined.


Lemma search_text_page_too_high_witness :
  (Z.of_nat (List.length scenario) <= 2)%Z
  /\ search_text_in_pdf "see" false false (Some 2%Z) (open_doc scenario) =
     (Ok (SError ("page " ++ Z_to_string 2 ++ " not in document")), open_doc scenario).
Proof.
  split; [cbn; lia|]. apply search_text_page_too_high. cbn. lia.
Defined.

Lemma verify_string_check_pages_witness :
  In (string_check scenario "CONFIDENTIAL")
     (v_string_checks (verify_redactions scenario scenario (Some ["CONFIDENTIAL"])))
  /\ sc_pages_found (string_check scenario "CONFIDENTIAL")
     = map fst (filter (has_hits (sc_search_string (string_check scenario "CONFIDENTIAL")))
                  (combine (range (List.length scenario)) scenario))
  /\ sc_found_in_redacted (string_check scenario "CONFIDENTIAL")
     = match sc_pages_found (string_check scenario "CONFIDENTIAL") with
       | [] => false | _ => true end.
Proof.
  split; [left; reflexivity|].
  apply (verify_string_check_pages (E := toy_engine) scenario scenario (Some ["CONFIDENTIAL"])).
  left. reflexivity.
Defined.

End Witnesses.


(** ** Counterexamples *)

Module Counterexamples.
Import Toy.




End Counterexamples.
